(** * Trailing-stop risk management model

    A shallow embedding of
    [Algorithm.Framework/Risk/TrailingStopRiskManagementModel.py]
    and the properties of its [ManageRisk] loop.

    Prices are Python floats, that is IEEE 754 binary64 numbers; they are
    modelled by Rocq's primitive floats, whose operations are specified by
    the Standard Library's [FloatAxioms].  The dictionary [trailingHighs]
    is a [gmap] keyed by the symbol, and [algorithm.Securities] is the list
    of key/value pairs the [for] loop walks through, in iteration order.
    [Securities] is itself a dictionary, so a symbol comes at most once in
    one iteration: the properties that speak of "the" entry of a symbol take
    [NoDup] of the keys as a hypothesis, and [loop_view] says what happens
    without it. *)

From Stdlib Require Import ZArith Floats.
From stdpp Require Import gmap list fin_maps strings.

Local Open Scope float_scope.

(** ** The model of the source *)

(** What the loop reads of a [security]: [Invested], [High] and [Low]. *)
Record Security : Type := {
  Invested : bool;
  High : float;
  Low : float;
}.

Section Model.

(** The symbols: any type of hashable keys. *)
Context {K : Type} `{Countable K}.

(** [PortfolioTarget(symbol, quantity)]. *)
Record PortfolioTarget : Type := {
  Symbol : K;
  Quantity : Z;
}.

(** The two attributes of [self]. *)
Record TrailingStopRiskManagementModel : Type := {
  maximumDrawdownPercent : float;
  trailingHighs : gmap K float;
}.

(** [__init__]: the absolute value of the argument and an empty [dict()]. *)
Definition __init__ (maximumDrawdownPercent : float) : TrailingStopRiskManagementModel :=
  {| maximumDrawdownPercent := abs maximumDrawdownPercent;
     trailingHighs := ∅ |}.

(** The default of the keyword argument, [0.05] rounded to binary64. *)
Definition default_maximumDrawdownPercent : float := 0x1.999999999999ap-5.

(** One round of the [for kvp in algorithm.Securities] loop, on the pair of
    [self.trailingHighs] and [riskAdjustedTargets]. *)
Definition ManageRisk_body (maximumDrawdownPercent : float)
    (st : gmap K float * list PortfolioTarget) (kvp : K * Security)
    : gmap K float * list PortfolioTarget :=
  let '(trailingHighs, riskAdjustedTargets) := st in
  let symbol := kvp.1 in
  let security := kvp.2 in
  if negb (Invested security) then
    (* self.trailingHighs.pop(symbol, None); continue *)
    (delete symbol trailingHighs, riskAdjustedTargets)
  else
    let high := High security in
    match trailingHighs !! symbol with
    | None =>
        (* maxHigh == None *)
        (<[symbol := high]> trailingHighs, riskAdjustedTargets)
    | Some maxHigh =>
        if maxHigh <? high then
          (<[symbol := high]> trailingHighs, riskAdjustedTargets)
        else if Low security <? maxHigh * (1 - maximumDrawdownPercent) then
          (trailingHighs,
           riskAdjustedTargets ++ [{| Symbol := symbol; Quantity := 0 |}])
        else (trailingHighs, riskAdjustedTargets)
    end.

(** [ManageRisk(self, algorithm, targets)]: the new [self] and the returned
    list.  [targets] is not read by the source, so it is not an argument. *)
Definition ManageRisk (self : TrailingStopRiskManagementModel)
    (Securities : list (K * Security))
    : TrailingStopRiskManagementModel * list PortfolioTarget :=
  let st := fold_left (ManageRisk_body (maximumDrawdownPercent self))
              Securities (trailingHighs self, []) in
  ({| maximumDrawdownPercent := maximumDrawdownPercent self;
      trailingHighs := st.1 |}, st.2).

(** Successive calls, one per time step, on the same object. *)
Fixpoint run (self : TrailingStopRiskManagementModel)
    (steps : list (list (K * Security)))
    : TrailingStopRiskManagementModel * list (list PortfolioTarget) :=
  match steps with
  | [] => (self, [])
  | Securities :: steps' =>
      let r := ManageRisk self Securities in
      let rs := run r.1 steps' in
      (rs.1, r.2 :: rs.2)
  end.

(** ** Vocabulary of the properties *)

(** The liquidation order for a symbol. *)
Definition liquidation (symbol : K) : PortfolioTarget :=
  {| Symbol := symbol; Quantity := 0 |}.

(** The targets of a list that are for a given symbol. *)
Definition targets_for (symbol : K) (l : list PortfolioTarget) : list PortfolioTarget :=
  filter (λ t, Symbol t = symbol) l.

(** The entries of a snapshot that are for a given symbol. *)
Definition entries_for (symbol : K) (l : list (K * Security)) : list Security :=
  (filter (λ kvp, kvp.1 = symbol) l).*2.

(** The drawdown test of the last [if], for a stored high [maxHigh]. *)
Definition below_threshold (maximumDrawdownPercent maxHigh : float) (security : Security) : bool :=
  Low security <? maxHigh * (1 - maximumDrawdownPercent).

(** What one round does to one symbol's record and to that symbol's targets. *)
Definition body_at (maximumDrawdownPercent : float) (symbol : K)
    (st : option float * list PortfolioTarget) (security : Security)
    : option float * list PortfolioTarget :=
  if negb (Invested security) then (None, st.2)
  else match st.1 with
       | None => (Some (High security), st.2)
       | Some maxHigh =>
           if maxHigh <? High security then (Some (High security), st.2)
           else if below_threshold maximumDrawdownPercent maxHigh security
                then (Some maxHigh, st.2 ++ [liquidation symbol])
                else (Some maxHigh, st.2)
       end.

(** What a state of the loop holds for one symbol: its record and its targets. *)
Definition view (symbol : K) (st : gmap K float * list PortfolioTarget)
    : option float * list PortfolioTarget :=
  (st.1 !! symbol, targets_for symbol st.2).

(** The test that makes a round append a target, for the dictionary the
    round starts from. *)
Definition triggers (maximumDrawdownPercent : float) (trailingHighs : gmap K float)
    (kvp : K * Security) : bool :=
  Invested kvp.2 &&
  match trailingHighs !! kvp.1 with
  | Some maxHigh =>
      negb (maxHigh <? High kvp.2)
      && below_threshold maximumDrawdownPercent maxHigh kvp.2
  | None => false
  end.

(** *** The observed highs

    For each symbol, the highs seen while it was invested, since it last
    came in (from absent or from flat): a flat entry forgets the list, an
    invested entry extends it, or starts it. *)
Definition observe (seen : gmap K (list float)) (kvp : K * Security)
    : gmap K (list float) :=
  if Invested kvp.2
  then <[kvp.1 := default [] (seen !! kvp.1) ++ [High kvp.2]]> seen
  else delete kvp.1 seen.

(** The observed highs after a whole snapshot. *)
Definition observe_all (seen : gmap K (list float)) (Securities : list (K * Security))
    : gmap K (list float) :=
  fold_left observe Securities seen.

(** [m] is a greatest element of [l]: it is in [l], and no element of [l]
    is strictly above it. *)
Definition is_maximum (m : float) (l : list float) : Prop :=
  m ∈ l ∧ ∀ h, h ∈ l → (m <? h) = false.

(** The dictionary holds, for exactly the symbols that have observed highs,
    a greatest one of them. *)
Definition tracks (trailingHighs : gmap K float) (seen : gmap K (list float)) : Prop :=
  ∀ symbol,
    match trailingHighs !! symbol with
    | Some m => ∃ l, seen !! symbol = Some l ∧ is_maximum m l
    | None => seen !! symbol = None
    end.

(** *** Runs of time steps

    In every step of the run the symbol has its one entry, it is invested,
    and its high stands in relation [rel] to the high stored before the
    step, when there is one. *)
Fixpoint high_run (rel : float → float → bool)
    (self : TrailingStopRiskManagementModel) (symbol : K)
    (steps : list (list (K * Security))) : Prop :=
  match steps with
  | [] => True
  | Securities :: steps' =>
      NoDup Securities.*1
      ∧ (∃ security, (symbol, security) ∈ Securities
           ∧ Invested security = true
           ∧ match trailingHighs self !! symbol with
             | Some maxHigh => rel maxHigh (High security) = true
             | None => True
             end)
      ∧ high_run rel (ManageRisk self Securities).1 symbol steps'
  end.

(** In a step the symbol has its one entry, invested, with a high that does
    not exceed [maxHigh] and a low under the threshold of [maxHigh]. *)
Definition in_drawdown (maximumDrawdownPercent maxHigh : float) (symbol : K)
    (Securities : list (K * Security)) : Prop :=
  NoDup Securities.*1
  ∧ ∃ security, (symbol, security) ∈ Securities
      ∧ Invested security = true
      ∧ (maxHigh <? High security) = false
      ∧ below_threshold maximumDrawdownPercent maxHigh security = true.

(** In a step the symbol is absent, or flat. *)
Definition not_invested (symbol : K) (Securities : list (K * Security)) : Prop :=
  ∀ security, security ∈ entries_for symbol Securities → Invested security = false.

End Model.

(** ** Concrete inputs

    Inputs with strings for symbols, used to run the definitions. *)

Module Scenario.

Definition X : string := "X"%string.
Definition Y : string := "Y"%string.
Definition W : string := "W"%string.

Definition security (invested : bool) (high low : float) : Security :=
  {| Invested := invested; High := high; Low := low |}.

(** A model with a quarter as its fraction and two stored highs. *)
Definition tracking : @TrailingStopRiskManagementModel string _ _ :=
  {| maximumDrawdownPercent := 0.25;
     trailingHighs := <[X := 100]> (<[Y := 50]> ∅) |}.

(** The highs observed so far, for [tracking]. *)
Definition tracking_seen : gmap string (list float) :=
  <[X := [90; 100; 95]]> (<[Y := [50]]> ∅).

(** The model of the scenarios of the specification: the default 5%. *)
Definition fresh : @TrailingStopRiskManagementModel string _ _ :=
  __init__ default_maximumDrawdownPercent.

(** [X] holds at its high and falls under 75; [W] comes in; [Y] rises. *)
Definition falling : list (string * Security) :=
  [(W, security true 10 9); (X, security true 100 74); (Y, security true 55 30)].

(** [X] is exactly on its threshold, [100 * (1 - 0.25) = 75]. *)
Definition on_threshold : list (string * Security) :=
  [(X, security true 100 75)].

(** Both [Y] and [X] are under their thresholds, [Y] first. *)
Definition both_falling : list (string * Security) :=
  [(Y, security true 50 30); (W, security false 10 9); (X, security true 99 70)].

Definition X_flat : list (string * Security) :=
  [(Y, security true 50 49); (X, security false 60 60)].

Definition X_away : list (list (string * Security)) :=
  [[(Y, security true 50 49)]; [(X, security false 61 61)]; []].

Definition X_back : list (string * Security) :=
  [(X, security true 80 70)].

Definition only_Y : list (string * Security) :=
  [(Y, security true 50 49)].

(** Three steps in which [X] stays under the threshold of its stored high. *)
Definition X_stuck : list (list (string * Security)) :=
  [[(X, security true 100 74)]; [(X, security true 99 70)];
   [(Y, security true 50 49); (X, security true 100 0)]].

(** Scenario A of the specification: the high is 100 twice. *)
Definition scenario_A : list (list (string * Security)) :=
  [[(X, security true 100 98)]; [(X, security true 100 94)]].

(** Scenario A followed by scenario B. *)
Definition scenario_AB : list (list (string * Security)) :=
  scenario_A ++ [[(X, security false 100 94)]; [(X, security true 80 70)]].

Definition scenario_C : list (list (string * Security)) :=
  [[(Y, security true 50 50)]; [(Y, security true 55 48)]].

(** Highs that rise at every step. *)
Definition rising : list (list (string * Security)) :=
  [[(X, security true 100 98)]; [(X, security true 101 1)];
   [(Y, security true 50 49); (X, security true 102 0)]].

End Scenario.

(** ** The moving averages of [CustomWarmUpPeriodIndicatorAlgorithm.py]

    The two indicator classes of the file, [CSMAWithWarmUp] and
    [CSMAWithoutWarmUp].  Each keeps the last [period] values in a
    [deque(maxlen=period)] and sets [Value] to their mean.  [np.sum] is
    NumPy's and is not part of the repository: it is a parameter of
    [Update].  The period is a natural number, as [deque] refuses a negative
    [maxlen]. *)

(** A [collections.deque] of floats with its [maxlen]. *)
Record deque : Type := {
  items : list float;
  maxlen : nat;
}.

(** [deque.appendleft(x)]: the item is put at the left end, and if the deque
    is now longer than [maxlen] the item at the right end is dropped. *)
Definition appendleft (x : float) (d : deque) : deque :=
  let grown := x :: items d in
  {| items := if maxlen d <? length grown then removelast grown else grown;
     maxlen := maxlen d |}%nat.

(** The count as a float, for the division: the nearest binary64 number. *)
Definition float_of_nat (n : nat) : float :=
  PrimFloat.of_uint63 (Uint63.of_Z (Z.of_nat n)).

Module CSMAWithWarmUp.

Record t : Type := {
  Name : string;
  Value : float;
  queue : deque;
  WarmUpPeriod : nat;
}.

(** [__init__(self, name, period)]; the [0] of [Value] is read as a float. *)
Definition __init__ (name : string) (period : nat) : t :=
  {| Name := name;
     Value := 0;
     queue := {| items := []; maxlen := period |};
     WarmUpPeriod := period |}.

(** [Update(self, input)], on [input.Value]: the new [self] and the returned
    boolean. *)
Definition Update (np_sum : list float → float) (self : t) (input_Value : float)
    : t * bool :=
  let queue := appendleft input_Value (queue self) in
  let count := length (items queue) in
  ({| Name := Name self;
      Value := np_sum (items queue) / float_of_nat count;
      queue := queue;
      WarmUpPeriod := WarmUpPeriod self |},
   Nat.eqb count (maxlen queue)).

(** [Update] on each input in turn: the last [self] and the booleans
    returned, in order. *)
Fixpoint feed (np_sum : list float → float) (self : t) (inputs : list float)
    : t * list bool :=
  match inputs with
  | [] => (self, [])
  | x :: inputs' =>
      let r := Update np_sum self x in
      let rs := feed np_sum r.1 inputs' in
      (rs.1, r.2 :: rs.2)
  end.

End CSMAWithWarmUp.

Module CSMAWithoutWarmUp.

Record t : Type := {
  Name : string;
  Value : float;
  queue : deque;
}.

(** [__init__(self, name, period)]: no [WarmUpPeriod] here. *)
Definition __init__ (name : string) (period : nat) : t :=
  {| Name := name;
     Value := 0;
     queue := {| items := []; maxlen := period |} |}.

Definition Update (np_sum : list float → float) (self : t) (input_Value : float)
    : t * bool :=
  let queue := appendleft input_Value (queue self) in
  let count := length (items queue) in
  ({| Name := Name self;
      Value := np_sum (items queue) / float_of_nat count;
      queue := queue |},
   Nat.eqb count (maxlen queue)).

Fixpoint feed (np_sum : list float → float) (self : t) (inputs : list float)
    : t * list bool :=
  match inputs with
  | [] => (self, [])
  | x :: inputs' =>
      let r := Update np_sum self x in
      let rs := feed np_sum r.1 inputs' in
      (rs.1, r.2 :: rs.2)
  end.

End CSMAWithoutWarmUp.

(** A sum from the left, to run the indicators with: one possible [np.sum]. *)
Definition sum_left (l : list float) : float := fold_left PrimFloat.add l 0.

(** ** The flags of [OptionPriceModelForSupportedEuropeanOptionRegressionAlgorithm.py]

    The algorithm shows the greeks of the call contracts of one option chain,
    once a day, and fails at the end if it never tried.  The engine gives
    [IsWarmingUp] and [slice.OptionChains] to [OnData]; reading
    [contract.Greeks] gives the greeks or raises [ArgumentException]. *)

Module SupportedEuropeanOption.

Inductive OptionRight : Type := Call | Put.

#[global] Instance OptionRight_eq_dec : EqDecision OptionRight.
Proof. solve_decision. Defined.

Record GreeksValues : Type := {
  Gamma : float;
  Rho : float;
  Delta : float;
  Vega : float;
}.

(** What [OnData] reads of a contract; [Greeks] is [None] when reading it
    raises [ArgumentException]. *)
Record OptionContract : Type := {
  SymbolValue : string;
  Strike : float;
  Right : OptionRight;
  Greeks : option GreeksValues;
}.

(** The values a [self.Debug] message is made of. *)
Record DebugMessage : Type := {
  debug_symbol : string;
  debug_strike : float;
  debug_greeks : GreeksValues;
}.

Section Algorithm.

Context {K : Type} `{EqDecision K}.

Record t : Type := {
  _indexOptionSymbol : K;
  _showGreeks : bool;
  _triedGreeksCalculation : bool;
}.

(** What [Initialize] leaves in [self], for the symbol [AddIndexOption] gave. *)
Definition Initialize (symbol : K) : t :=
  {| _indexOptionSymbol := symbol;
     _showGreeks := true;
     _triedGreeksCalculation := false |}.

(** [for contract in contracts]: the messages sent, and the symbol of the
    contract whose greeks raised, if one did. *)
Fixpoint show_greeks (contracts : list OptionContract)
    : list DebugMessage * option string :=
  match contracts with
  | [] => ([], None)
  | contract :: contracts' =>
      match Greeks contract with
      | None => ([], Some (SymbolValue contract))
      | Some greeks =>
          let r := show_greeks contracts' in
          ({| debug_symbol := SymbolValue contract;
              debug_strike := Strike contract;
              debug_greeks := greeks |} :: r.1, r.2)
      end
  end.

(** [contract for contract in chain if contract.Right == OptionRight.Call]. *)
Definition calls (chain : list OptionContract) : list OptionContract :=
  filter (λ contract, Right contract = Call) chain.

(** [for kvp in slice.OptionChains]: the new [self], the messages sent and
    the exception raised, if any. *)
Fixpoint OnData_loop (self : t) (OptionChains : list (K * list OptionContract))
    : t * list DebugMessage * option string :=
  match OptionChains with
  | [] => (self, [], None)
  | kvp :: rest =>
      if negb (bool_decide (kvp.1 = _indexOptionSymbol self)) then
        OnData_loop self rest
      else
        let contracts := calls kvp.2 in
        if Nat.eqb (length contracts) 0 then (self, [], None)
        else if _showGreeks self then
          let self' := {| _indexOptionSymbol := _indexOptionSymbol self;
                          _showGreeks := false;
                          _triedGreeksCalculation := true |} in
          let shown := show_greeks contracts in
          match shown.2 with
          | Some failed => (self', shown.1, Some failed)
          | None =>
              let r := OnData_loop self' rest in
              (r.1.1, shown.1 ++ r.1.2, r.2)
          end
        else OnData_loop self rest
  end.

(** [OnData(self, slice)]. *)
Definition OnData (self : t) (IsWarmingUp : bool)
    (OptionChains : list (K * list OptionContract))
    : t * list DebugMessage * option string :=
  if IsWarmingUp then (self, [], None) else OnData_loop self OptionChains.

(** [OnEndOfDay(self, symbol)]. *)
Definition OnEndOfDay (self : t) : t :=
  {| _indexOptionSymbol := _indexOptionSymbol self;
     _showGreeks := true;
     _triedGreeksCalculation := _triedGreeksCalculation self |}.

(** [OnEndOfAlgorithm(self)]: [true] when it raises. *)
Definition OnEndOfAlgorithm (self : t) : bool :=
  negb (_triedGreeksCalculation self).

(** The calls of the engine between [Initialize] and [OnEndOfAlgorithm]. *)
Inductive event : Type :=
  | Data (IsWarmingUp : bool) (OptionChains : list (K * list OptionContract))
  | EndOfDay.

(** The calls in turn, up to the first that raises: the last [self], the
    messages of each call made, and the exception. *)
Fixpoint handle (self : t) (events : list event)
    : t * list (list DebugMessage) * option string :=
  match events with
  | [] => (self, [], None)
  | EndOfDay :: events' =>
      let r := handle (OnEndOfDay self) events' in
      (r.1.1, [] :: r.1.2, r.2)
  | Data IsWarmingUp OptionChains :: events' =>
      let d := OnData self IsWarmingUp OptionChains in
      match d.2 with
      | Some failed => (d.1.1, [d.1.2], Some failed)
      | None =>
          let r := handle d.1.1 events' in
          (r.1.1, d.1.2 :: r.1.2, r.2)
      end
  end.

(** The first chain of the symbol, if there is one, has a call contract. *)
Fixpoint chain_has_calls (symbol : K) (OptionChains : list (K * list OptionContract))
    : bool :=
  match OptionChains with
  | [] => false
  | kvp :: rest =>
      if bool_decide (kvp.1 = symbol) then negb (Nat.eqb (length (calls kvp.2)) 0)
      else chain_has_calls symbol rest
  end.

(** A call of [OnData] after the warm-up whose slice has call contracts for
    the symbol. *)
Definition offers_calls (symbol : K) (e : event) : bool :=
  match e with
  | Data IsWarmingUp OptionChains =>
      negb IsWarmingUp && chain_has_calls symbol OptionChains
  | EndOfDay => false
  end.

Definition is_data (e : event) : bool :=
  match e with Data _ _ => true | EndOfDay => false end.

(** The flags stand in this relation from [Initialize] on: the greeks are
    hidden only when they were tried. *)
Definition tried_if_hidden (self : t) : Prop :=
  _showGreeks self = false → _triedGreeksCalculation self = true.

End Algorithm.

End SupportedEuropeanOption.

(** Inputs for the option regression algorithm. *)

Module OptionScenario.

Import SupportedEuropeanOption.

Definition SPX : string := "SPX"%string.

Definition some_greeks : GreeksValues :=
  {| Gamma := 0.5; Rho := 0.25; Delta := 0.75; Vega := 2 |}.

Definition a_call : OptionContract :=
  {| SymbolValue := "SPX C3700"%string; Strike := 3700; Right := Call;
     Greeks := Some some_greeks |}.

Definition a_put : OptionContract :=
  {| SymbolValue := "SPX P3700"%string; Strike := 3700; Right := Put;
     Greeks := Some some_greeks |}.

(** A call whose greeks cannot be read. *)
Definition a_bad_call : OptionContract :=
  {| SymbolValue := "SPX C3800"%string; Strike := 3800; Right := Call;
     Greeks := None |}.

Definition with_calls : list (string * list OptionContract) :=
  [("SPY"%string, [a_call]); (SPX, [a_put; a_call; a_call])].

Definition only_puts : list (string * list OptionContract) :=
  [(SPX, [a_put])].

(** Two slices with calls in one day, then one the day after. *)
Definition two_days : list (@event string) :=
  [Data true with_calls; Data false only_puts; Data false with_calls;
   Data false with_calls; EndOfDay; Data false with_calls].

Definition one_day : list (@event string) :=
  [Data false only_puts; Data false with_calls; Data false with_calls].

End OptionScenario.

(** ** Comparison of binary64 numbers *)

Module FloatOrder.

(** The three comparisons of the source, [<], [<=] and [==], all read the
    same [SFcompare] of the decoded numbers. *)

Lemma SFcompare_antisym (x y : spec_float) :
  SFcompare y x = option_map CompOpp (SFcompare x y).
Proof.
  destruct x as [sx| sx| |sx mx ex], y as [sy| sy| |sy my ey]; simpl;
    try reflexivity;
    try (destruct sx; reflexivity); try (destruct sy; reflexivity);
    try (destruct sx, sy; reflexivity).
  f_equal. destruct sx, sy; try reflexivity.
  - rewrite (Z.compare_antisym ey ex).
    destruct (ey ?= ex)%Z; simpl; try reflexivity.
    change (Pos.compare_cont Eq my mx) with (Pos.compare my mx).
    change (Pos.compare_cont Eq mx my) with (Pos.compare mx my).
    rewrite (Pos.compare_antisym my mx).
    now destruct (my ?= mx)%positive.
  - rewrite (Z.compare_antisym ey ex).
    destruct (ey ?= ex)%Z; simpl; try reflexivity.
    change (Pos.compare_cont Eq my mx) with (Pos.compare my mx).
    change (Pos.compare_cont Eq mx my) with (Pos.compare mx my).
    now rewrite (Pos.compare_antisym mx my).
Qed.

Lemma SFcompare_Lt_trans (x y z : spec_float) :
  SFcompare x y = Some Lt → SFcompare y z = Some Lt → SFcompare x z = Some Lt.
Proof.
  destruct x as [sx| sx| |sx mx ex], y as [sy| sy| |sy my ey],
    z as [sz| sz| |sz mz ez]; simpl;
    try discriminate;
    try (destruct sx; (discriminate || (destruct sz; (discriminate || reflexivity))));
    try (destruct sx, sy; (discriminate || (destruct sz; (discriminate || reflexivity))));
    try (destruct sy; (discriminate || (destruct sz; (discriminate || reflexivity)))).
  all: try (destruct sx, sy, sz; simpl; try discriminate; try reflexivity).
  all: intros H1 H2;
    change (Pos.compare_cont Eq mx my) with (Pos.compare mx my) in H1;
    change (Pos.compare_cont Eq my mz) with (Pos.compare my mz) in H2;
    change (Pos.compare_cont Eq mx mz) with (Pos.compare mx mz);
    destruct (Z.compare_spec ex ey), (Z.compare_spec ey ez);
    try discriminate;
    destruct (Pos.compare_spec mx my); try discriminate;
    destruct (Pos.compare_spec my mz); try discriminate;
    destruct (Z.compare_spec ex ez); try reflexivity; try lia;
    destruct (Pos.compare_spec mx mz); try reflexivity; simpl; lia.
Qed.

Lemma ltb_irrefl (x : float) : (x <? x) = false.
Proof.
  rewrite FloatAxioms.ltb_spec. unfold SFltb.
  pose proof (SFcompare_antisym (Prim2SF x) (Prim2SF x)) as A.
  destruct (SFcompare (Prim2SF x) (Prim2SF x)) as [[]|]; try reflexivity.
  discriminate.
Qed.

Lemma ltb_trans (x y z : float) :
  (x <? y) = true → (y <? z) = true → (x <? z) = true.
Proof.
  rewrite !FloatAxioms.ltb_spec. unfold SFltb. intros H1 H2.
  rewrite (SFcompare_Lt_trans (Prim2SF x) (Prim2SF y) (Prim2SF z)); [reflexivity| |].
  - destruct (SFcompare (Prim2SF x) (Prim2SF y)) as [[]|]; congruence.
  - destruct (SFcompare (Prim2SF y) (Prim2SF z)) as [[]|]; congruence.
Qed.

(** [a <= b] excludes [b < a]. *)
Lemma leb_not_gt (x y : float) : (x <=? y) = true → (y <? x) = false.
Proof.
  rewrite FloatAxioms.leb_spec, FloatAxioms.ltb_spec. unfold SFleb, SFltb.
  rewrite (SFcompare_antisym (Prim2SF x) (Prim2SF y)).
  destruct (SFcompare (Prim2SF x) (Prim2SF y)) as [[]|]; simpl; congruence.
Qed.

(** [a == b] excludes [a < b]. *)
Lemma eqb_not_lt (x y : float) : (x =? y) = true → (x <? y) = false.
Proof.
  rewrite FloatAxioms.eqb_spec, FloatAxioms.ltb_spec. unfold SFeqb, SFltb.
  destruct (SFcompare (Prim2SF x) (Prim2SF y)) as [[]|]; simpl; congruence.
Qed.

(** Away from NaN the order is total. *)
Lemma not_lt_leb (x y : float) :
  (x =? x) = true → (y =? y) = true → (x <? y) = false → (y <=? x) = true.
Proof.
  rewrite !FloatAxioms.eqb_spec, FloatAxioms.leb_spec, FloatAxioms.ltb_spec. unfold SFeqb, SFleb, SFltb.
  rewrite (SFcompare_antisym (Prim2SF x) (Prim2SF y)).
  destruct (Prim2SF x) as [sx| sx| |sx mx ex], (Prim2SF y) as [sy| sy| |sy my ey];
    simpl; try discriminate;
    try (destruct sx; simpl; congruence); try (destruct sy; simpl; congruence);
    try (destruct sx, sy; simpl; congruence).
  intros _ _.
  destruct sx, sy; simpl; try congruence.
  - destruct (ex ?= ey)%Z; simpl; try congruence.
    destruct (Pos.compare_cont Eq mx my); simpl; congruence.
  - destruct (ex ?= ey)%Z; simpl; try congruence.
    destruct (Pos.compare_cont Eq mx my); simpl; congruence.
Qed.

(** [abs] forgets the sign, so it cannot tell a number from its opposite. *)
Lemma abs_opp (x : float) : abs (- x) = abs x.
Proof.
  apply Prim2SF_inj. rewrite !abs_spec, opp_spec.
  now destruct (Prim2SF x).
Qed.

End FloatOrder.

(** ** How one round of the loop acts on one symbol *)

Section Locality.

Context {K : Type} `{Countable K}.
Implicit Types (symbol : K) (security : Security) (mdp : float).
Implicit Types (st : gmap K float * list (@PortfolioTarget K)).

Lemma targets_for_app symbol (l1 l2 : list (@PortfolioTarget K)) :
  targets_for symbol (l1 ++ l2) = targets_for symbol l1 ++ targets_for symbol l2.
Proof. apply filter_app. Qed.

Lemma targets_for_liquidation_eq symbol :
  targets_for symbol [liquidation symbol] = [liquidation symbol].
Proof. unfold targets_for. rewrite filter_cons_True; done. Qed.

Lemma targets_for_liquidation_ne symbol symbol' :
  symbol' ≠ symbol → targets_for symbol [liquidation symbol'] = [].
Proof. intros. unfold targets_for. rewrite filter_cons_False; done. Qed.

(** A round for another symbol leaves the view of [symbol] alone. *)
Lemma body_view_ne mdp symbol st kvp :
  kvp.1 ≠ symbol →
  view symbol (ManageRisk_body mdp st kvp) = view symbol st.
Proof.
  intros Hne. destruct st as [ths out], kvp as [k security]; simpl in *.
  unfold ManageRisk_body, view; simpl.
  destruct (Invested security); simpl.
  - destruct (ths !! k) as [maxHigh|] eqn:E; simpl.
    + destruct (maxHigh <? High security); simpl.
      * by rewrite lookup_insert_ne.
      * destruct (Low security <? maxHigh * (1 - mdp)); simpl; [|done].
        rewrite targets_for_app.
        fold (liquidation k).
        rewrite targets_for_liquidation_ne by done.
        by rewrite app_nil_r.
    + by rewrite lookup_insert_ne.
  - by rewrite lookup_delete_ne.
Qed.

(** A round for [symbol] acts on its view as [body_at] says. *)
Lemma body_view_eq mdp symbol st security :
  view symbol (ManageRisk_body mdp st (symbol, security))
  = body_at mdp symbol (view symbol st) security.
Proof.
  destruct st as [ths out]; simpl.
  unfold ManageRisk_body, body_at, view, below_threshold; simpl.
  destruct (Invested security); simpl.
  - destruct (ths !! symbol) as [maxHigh|] eqn:E; simpl.
    + destruct (maxHigh <? High security); simpl.
      * by rewrite lookup_insert_eq.
      * destruct (Low security <? maxHigh * (1 - mdp)); simpl; rewrite E; [|done].
        rewrite targets_for_app.
        fold (liquidation symbol).
        by rewrite targets_for_liquidation_eq.
    + by rewrite lookup_insert_eq.
  - by rewrite lookup_delete_eq.
Qed.

(** The whole loop, seen from one symbol, is the fold of [body_at] over that
    symbol's entries. *)
Lemma loop_view mdp symbol (Securities : list (K * Security)) st :
  view symbol (fold_left (ManageRisk_body mdp) Securities st)
  = fold_left (body_at mdp symbol) (entries_for symbol Securities) (view symbol st).
Proof.
  revert st. induction Securities as [|[k security] rest IH]; intros st; [done|].
  simpl. rewrite IH. unfold entries_for.
  destruct (decide (k = symbol)) as [->|Hne].
  - rewrite filter_cons_True by done. simpl. by rewrite body_view_eq.
  - rewrite filter_cons_False by done. by rewrite body_view_ne.
Qed.

Lemma entries_for_absent symbol (Securities : list (K * Security)) :
  symbol ∉ Securities.*1 → entries_for symbol Securities = [].
Proof.
  intros Hn. unfold entries_for.
  induction Securities as [|[k security] rest IH]; [done|].
  simpl in Hn. apply not_elem_of_cons in Hn as [Hne Hn].
  rewrite filter_cons_False by (simpl; congruence). by apply IH.
Qed.

(** In a dictionary a key comes once: its entry is the only one. *)
Lemma entries_for_unique symbol security (Securities : list (K * Security)) :
  NoDup Securities.*1 → (symbol, security) ∈ Securities →
  entries_for symbol Securities = [security].
Proof.
  induction Securities as [|[k s] rest IH]; simpl; intros Hnd Hin.
  - by apply elem_of_nil in Hin.
  - apply NoDup_cons in Hnd as [Hk Hnd]. unfold entries_for.
    apply elem_of_cons in Hin as [Heq|Hin].
    + injection Heq as <- <-. rewrite filter_cons_True by done. simpl.
      f_equal. by apply entries_for_absent.
    + assert (k ≠ symbol).
      { intros ->. apply Hk. apply list_elem_of_fmap. by exists (symbol, security). }
      rewrite filter_cons_False by done. by apply IH.
Qed.

Lemma ManageRisk_view self symbol (Securities : list (K * Security)) :
  let r := fold_left (body_at (maximumDrawdownPercent self) symbol)
             (entries_for symbol Securities) (trailingHighs self !! symbol, []) in
  trailingHighs (ManageRisk self Securities).1 !! symbol = r.1
  ∧ targets_for symbol (ManageRisk self Securities).2 = r.2.
Proof.
  intros r. unfold ManageRisk; simpl.
  pose proof (loop_view (maximumDrawdownPercent self) symbol Securities
                (trailingHighs self, [])) as V.
  unfold view in V. simpl in V.
  change (targets_for symbol []) with (@nil (@PortfolioTarget K)) in V.
  fold r in V. by rewrite <- V.
Qed.

Lemma ManageRisk_view_unique self symbol security (Securities : list (K * Security)) :
  NoDup Securities.*1 → (symbol, security) ∈ Securities →
  let r := body_at (maximumDrawdownPercent self) symbol
             (trailingHighs self !! symbol, []) security in
  trailingHighs (ManageRisk self Securities).1 !! symbol = r.1
  ∧ targets_for symbol (ManageRisk self Securities).2 = r.2.
Proof.
  intros Hnd Hin. pose proof (ManageRisk_view self symbol Securities) as V.
  by rewrite (entries_for_unique symbol security) in V.
Qed.

(** What a round appends: the liquidation of its symbol when [triggers]
    holds, and nothing otherwise. *)
Lemma body_output mdp (ths : gmap K float) (out : list (@PortfolioTarget K))
    (kvp : K * Security) :
  (ManageRisk_body mdp (ths, out) kvp).2
  = out ++ (if triggers mdp ths kvp then [liquidation kvp.1] else []).
Proof.
  destruct kvp as [k security].
  unfold ManageRisk_body, triggers, below_threshold; simpl.
  destruct (Invested security); simpl; [|by rewrite app_nil_r].
  destruct (ths !! k) as [maxHigh|]; simpl; [|by rewrite app_nil_r].
  destruct (maxHigh <? High security); simpl; [by rewrite app_nil_r|].
  destruct (Low security <? maxHigh * (1 - mdp)); simpl; [done|by rewrite app_nil_r].
Qed.

(** A round that appends a target leaves the whole dictionary as it was;
    the symbol had a record. *)
Lemma body_emits mdp (st : gmap K float * list (@PortfolioTarget K))
    (kvp : K * Security) :
  (ManageRisk_body mdp st kvp).2 ≠ st.2 →
  (ManageRisk_body mdp st kvp).2 = st.2 ++ [liquidation kvp.1]
  ∧ (ManageRisk_body mdp st kvp).1 = st.1
  ∧ triggers mdp st.1 kvp = true.
Proof.
  destruct st as [ths out], kvp as [k security].
  unfold ManageRisk_body, triggers, below_threshold; simpl.
  destruct (Invested security); simpl; [|done].
  destruct (ths !! k) as [maxHigh|]; simpl; [|done].
  destruct (maxHigh <? High security); simpl; [done|].
  destruct (Low security <? maxHigh * (1 - mdp)); simpl; done.
Qed.

(** A record goes away only in a round for its own symbol, on a flat entry. *)
Lemma body_removes mdp (st : gmap K float * list (@PortfolioTarget K))
    (kvp : K * Security) symbol :
  is_Some (st.1 !! symbol) →
  (ManageRisk_body mdp st kvp).1 !! symbol = None →
  kvp.1 = symbol ∧ Invested kvp.2 = false.
Proof.
  intros [m Hm] Hnone.
  destruct (decide (kvp.1 = symbol)) as [Heq|Hne].
  - split; [done|]. destruct kvp as [k security]; simpl in *; subst k.
    pose proof (body_view_eq mdp symbol st security) as V.
    unfold view, body_at in V. simpl in V. rewrite Hnone, Hm in V.
    destruct (Invested security); [|done]. simpl in V.
    destruct (m <? High security); [done|].
    by destruct (below_threshold mdp m security).
  - pose proof (body_view_ne mdp symbol st kvp Hne) as V.
    unfold view in V. congruence.
Qed.

End Locality.

(** ** One call of [ManageRisk] *)

Section OneCall.

Context {K : Type} `{Countable K}.
Implicit Types (symbol : K) (security : Security).
Implicit Types (self : @TrailingStopRiskManagementModel K _ _).
Implicit Types (Securities : list (K * Security)).

(** C1 (threshold trigger).  The dictionary holds a trailing high [maxHigh]
    for the symbol, and the symbol's entry of the snapshot is invested with
    a high that is at most [maxHigh].  Then the call returns exactly one
    target for the symbol, the liquidation [{symbol, 0}], when the low is
    strictly under [maxHigh * (1 - maximumDrawdownPercent)], and none
    otherwise; a low equal to the threshold returns none. *)
Theorem threshold_trigger self symbol security Securities (maxHigh : float) :
  NoDup Securities.*1 →
  (symbol, security) ∈ Securities →
  trailingHighs self !! symbol = Some maxHigh →
  Invested security = true →
  (High security <=? maxHigh) = true →
  let threshold := maxHigh * (1 - maximumDrawdownPercent self) in
  let emitted := targets_for symbol (ManageRisk self Securities).2 in
  emitted = (if Low security <? threshold then [liquidation symbol] else [])
  ∧ (emitted = [liquidation symbol] ↔ (Low security <? threshold) = true)
  ∧ ((Low security =? threshold) = true → emitted = []).
Proof.
  intros Hnd Hin Hget Hinv Hle threshold emitted.
  destruct (ManageRisk_view_unique self symbol security Securities Hnd Hin) as [_ V].
  fold emitted in V.
  unfold body_at, below_threshold in V. simpl in V.
  rewrite Hinv, Hget, (FloatOrder.leb_not_gt _ _ Hle) in V. simpl in V.
  fold threshold in V.
  assert (E : emitted = if Low security <? threshold then [liquidation symbol] else []).
  { rewrite V. by destruct (Low security <? threshold). }
  split; [exact E|]. split.
  - rewrite E. destruct (Low security <? threshold); split; intros; done.
  - intros Heq. rewrite E. by rewrite (FloatOrder.eqb_not_lt _ _ Heq).
Qed.

(** An invested entry with nothing stored, or with a high strictly above
    the stored one, stores its high and appends nothing for its symbol. *)
Lemma first_or_higher self symbol security Securities :
  NoDup Securities.*1 →
  (symbol, security) ∈ Securities →
  Invested security = true →
  match trailingHighs self !! symbol with
  | Some maxHigh => (maxHigh <? High security) = true
  | None => True
  end →
  trailingHighs (ManageRisk self Securities).1 !! symbol = Some (High security)
  ∧ targets_for symbol (ManageRisk self Securities).2 = [].
Proof.
  intros Hnd Hin Hinv Hcase.
  destruct (ManageRisk_view_unique self symbol security Securities Hnd Hin) as [V1 V2].
  rewrite V1, V2. unfold body_at; simpl. rewrite Hinv; simpl.
  destruct (trailingHighs self !! symbol) as [maxHigh|]; [|done].
  by rewrite Hcase.
Qed.

(** C2 (establish or advance).  The symbol's entry is invested, and either
    the dictionary has no record for the symbol or the entry's high is
    strictly above the stored one.  Then after the call the stored high is
    the entry's high, and the call returns no target for the symbol,
    whatever the low. *)
Theorem establish_or_advance self symbol security Securities :
  NoDup Securities.*1 →
  (symbol, security) ∈ Securities →
  Invested security = true →
  (trailingHighs self !! symbol = None
   ∨ ∃ maxHigh, trailingHighs self !! symbol = Some maxHigh
                ∧ (maxHigh <? High security) = true) →
  trailingHighs (ManageRisk self Securities).1 !! symbol = Some (High security)
  ∧ targets_for symbol (ManageRisk self Securities).2 = [].
Proof.
  intros Hnd Hin Hinv Hcase.
  apply (first_or_higher self symbol security Securities Hnd Hin Hinv).
  destruct Hcase as [Hnone|(maxHigh & Hsome & Hlt)].
  - by rewrite Hnone.
  - by rewrite Hsome.
Qed.

(** A flat entry removes the record and returns nothing for the symbol. *)
Lemma flat_removes self symbol security Securities :
  NoDup Securities.*1 →
  (symbol, security) ∈ Securities →
  Invested security = false →
  trailingHighs (ManageRisk self Securities).1 !! symbol = None
  ∧ targets_for symbol (ManageRisk self Securities).2 = [].
Proof.
  intros Hnd Hin Hflat.
  destruct (ManageRisk_view_unique self symbol security Securities Hnd Hin) as [V1 V2].
  rewrite V1, V2. unfold body_at; simpl. by rewrite Hflat.
Qed.

(** While the symbol is absent or flat, an absent record stays absent and
    nothing is returned for the symbol. *)
Lemma not_invested_stays_absent self symbol Securities :
  not_invested symbol Securities →
  trailingHighs self !! symbol = None →
  trailingHighs (ManageRisk self Securities).1 !! symbol = None
  ∧ targets_for symbol (ManageRisk self Securities).2 = [].
Proof.
  intros Hflat Hnone.
  destruct (ManageRisk_view self symbol Securities) as [V1 V2].
  rewrite V1, V2, Hnone. unfold not_invested in Hflat.
  clear V1 V2. revert Hflat.
  generalize (entries_for symbol Securities). intros entries Hflat.
  assert (G : fold_left (body_at (maximumDrawdownPercent self) symbol)
                entries (None, []) = (None, [])).
  { induction entries as [|entry entries IH]; [done|].
    simpl. unfold body_at at 2. simpl.
    rewrite (Hflat entry) by (by left). simpl.
    apply IH. intros entry' Hentry'. apply Hflat. by right. }
  by rewrite G.
Qed.

(** A symbol that is not in the snapshot keeps its record, present or
    absent, and gets no target. *)
Lemma absent_untouched self symbol Securities :
  symbol ∉ Securities.*1 →
  trailingHighs (ManageRisk self Securities).1 !! symbol = trailingHighs self !! symbol
  ∧ targets_for symbol (ManageRisk self Securities).2 = [].
Proof.
  intros Habs.
  destruct (ManageRisk_view self symbol Securities) as [V1 V2].
  rewrite V1, V2.
  by rewrite (entries_for_absent symbol Securities Habs).
Qed.

(** C6 (emission keeps the state).  Take the round of the loop that handles
    any one entry [kvp] of the snapshot, [st] being the dictionary and the
    list before that round.  If the round appends a target, then what it
    appends is the liquidation of the entry's symbol, the dictionary after
    the round is the dictionary before it, for every symbol, the symbol had
    a record when the call started, and the record is the same when the
    call returns: it is neither reset nor removed. *)
Theorem emission_keeps_state self (before after : list (K * Security))
    (kvp : K * Security) :
  let mdp := maximumDrawdownPercent self in
  let st := fold_left (ManageRisk_body mdp) before (trailingHighs self, []) in
  let st' := ManageRisk_body mdp st kvp in
  NoDup (before ++ kvp :: after).*1 →
  st'.2 ≠ st.2 →
  st'.2 = st.2 ++ [liquidation kvp.1]
  ∧ st'.1 = st.1
  ∧ is_Some (trailingHighs self !! kvp.1)
  ∧ trailingHighs (ManageRisk self (before ++ kvp :: after)).1 !! kvp.1
    = trailingHighs self !! kvp.1.
Proof.
  intros mdp st st' Hnd Hemit.
  destruct (body_emits mdp st kvp Hemit) as (Hout & Hths & Htrig).
  split; [exact Hout|]. split; [exact Hths|].
  assert (Hbefore : kvp.1 ∉ before.*1).
  { rewrite fmap_app in Hnd. apply NoDup_app in Hnd as (_ & Hdisj & _).
    intros Hin. apply (Hdisj _ Hin). rewrite fmap_cons. by left. }
  assert (Hsame : st.1 !! kvp.1 = trailingHighs self !! kvp.1).
  { pose proof (loop_view mdp kvp.1 before (trailingHighs self, [])) as V.
    rewrite (entries_for_absent _ _ Hbefore) in V. simpl in V.
    unfold view in V. simpl in V. fold st in V. congruence. }
  unfold triggers, below_threshold in Htrig. rewrite Hsame in Htrig.
  destruct (Invested kvp.2) eqn:Hinv; [|done]. simpl in Htrig.
  destruct (trailingHighs self !! kvp.1) as [maxHigh|] eqn:Hget; [|done].
  apply andb_true_iff in Htrig as [Hnlt Hlow]. apply negb_true_iff in Hnlt.
  split; [by eexists|].
  assert (Hin : (kvp.1, kvp.2) ∈ before ++ kvp :: after).
  { rewrite <- surjective_pairing. apply elem_of_app. right. by left. }
  destruct (ManageRisk_view_unique self kvp.1 kvp.2 _ Hnd Hin) as [V1 _].
  rewrite V1. unfold body_at, below_threshold. simpl.
  fold mdp. by rewrite Hinv, Hget, Hnlt, Hlow.
Qed.

(** The loop appends, in the order of the snapshot, the liquidation of each
    entry that [triggers], as long as the dictionary it started from is
    still the one the entries left to come are read in. *)
Lemma loop_output mdp (ths0 : gmap K float) Securities :
  ∀ (ths : gmap K float) (out : list (@PortfolioTarget K)),
    NoDup Securities.*1 →
    (∀ k, k ∈ Securities.*1 → ths !! k = ths0 !! k) →
    (fold_left (ManageRisk_body mdp) Securities (ths, out)).2
    = out ++ ((λ kvp, liquidation kvp.1) <$>
               filter (λ kvp, triggers mdp ths0 kvp = true) Securities).
Proof.
  induction Securities as [|kvp rest IH]; intros ths out Hnd Hagree.
  - simpl. by rewrite app_nil_r.
  - rewrite fmap_cons in Hnd. apply NoDup_cons in Hnd as [Hfresh Hnd].
    change (fold_left (ManageRisk_body mdp) (kvp :: rest) (ths, out))
      with (fold_left (ManageRisk_body mdp) rest (ManageRisk_body mdp (ths, out) kvp)).
    destruct (ManageRisk_body mdp (ths, out) kvp) as [ths' out'] eqn:E.
    assert (Hout : out' = out ++ (if triggers mdp ths kvp then [liquidation kvp.1] else []))
      by (by rewrite <- (body_output mdp ths out kvp), E).
    assert (Htrig : triggers mdp ths kvp = triggers mdp ths0 kvp).
    { unfold triggers. rewrite (Hagree kvp.1); [done|]. simpl. by left. }
    rewrite (IH ths' out' Hnd).
    + rewrite Hout, Htrig.
      destruct (triggers mdp ths0 kvp) eqn:T.
      * rewrite filter_cons_True by done. rewrite fmap_cons.
        by rewrite <- app_assoc.
      * rewrite filter_cons_False by (by rewrite T). by rewrite app_nil_r.
    + intros k Hk. rewrite <- (Hagree k) by (simpl; by right).
      assert (Hne : kvp.1 ≠ k) by (intros Heq; apply Hfresh; by rewrite Heq).
      pose proof (body_view_ne mdp k (ths, out) kvp Hne) as V.
      rewrite E in V. unfold view in V. simpl in V. congruence.
Qed.

(** C9 (order of the output).  The list a call returns is the list of the
    snapshot's entries that meet the trigger condition (invested, a stored
    high that the entry's high does not exceed, a low strictly under the
    threshold of the stored high), each turned into the liquidation of its
    symbol, in the order of the snapshot, one target per such entry. *)
Theorem output_in_snapshot_order self Securities :
  NoDup Securities.*1 →
  (ManageRisk self Securities).2
  = (λ kvp, liquidation kvp.1) <$>
      filter (λ kvp, triggers (maximumDrawdownPercent self) (trailingHighs self) kvp = true)
        Securities.
Proof.
  intros Hnd. unfold ManageRisk; simpl.
  by rewrite (loop_output _ (trailingHighs self) Securities (trailingHighs self) [] Hnd).
Qed.

End OneCall.

(** ** Successive calls *)

Section Runs.

Context {K : Type} `{Countable K}.
Implicit Types (symbol : K) (security : Security).
Implicit Types (self : @TrailingStopRiskManagementModel K _ _).
Implicit Types (Securities : list (K * Security)).
Implicit Types (steps : list (list (K * Security))).

Lemma run_cons self Securities steps :
  run self (Securities :: steps)
  = ((run (ManageRisk self Securities).1 steps).1,
     (ManageRisk self Securities).2 :: (run (ManageRisk self Securities).1 steps).2).
Proof. done. Qed.

Lemma run_length self steps : length (run self steps).2 = length steps.
Proof.
  revert self. induction steps as [|S steps IH]; intros self; [done|].
  rewrite run_cons; cbn [fst snd length]. by rewrite IH.
Qed.

Lemma run_not_invested self symbol steps :
  Forall (not_invested symbol) steps →
  trailingHighs self !! symbol = None →
  trailingHighs (run self steps).1 !! symbol = None.
Proof.
  revert self. induction steps as [|S steps IH]; intros self Hall Hnone; [done|].
  apply Forall_cons in Hall as [HS Hall]. rewrite run_cons; cbn [fst snd].
  apply IH; [done|]. by apply not_invested_stays_absent.
Qed.

(** C3 (flat eviction).  A snapshot in which the symbol is flat leaves no
    record for the symbol, whether there was one or not, and returns no
    target for it.  After any further steps in which the symbol is absent or
    flat, the first snapshot that holds it invested stores that snapshot's
    high for it and returns no target for it: nothing of the state before
    the eviction is read. *)
Theorem flat_eviction self symbol (flat later : Security)
    Securities steps Securities' :
  NoDup Securities.*1 →
  (symbol, flat) ∈ Securities →
  Invested flat = false →
  Forall (not_invested symbol) steps →
  NoDup Securities'.*1 →
  (symbol, later) ∈ Securities' →
  Invested later = true →
  let evicted := ManageRisk self Securities in
  let idle := run evicted.1 steps in
  let back := ManageRisk idle.1 Securities' in
  trailingHighs evicted.1 !! symbol = None
  ∧ targets_for symbol evicted.2 = []
  ∧ trailingHighs back.1 !! symbol = Some (High later)
  ∧ targets_for symbol back.2 = [].
Proof.
  intros Hnd Hin Hflat Hidle Hnd' Hin' Hinv evicted idle back.
  destruct (flat_removes self symbol flat Securities Hnd Hin Hflat) as [E1 E2].
  split; [exact E1|]. split; [exact E2|].
  apply first_or_higher; [done..|].
  unfold idle. by rewrite (run_not_invested evicted.1 symbol steps Hidle E1).
Qed.

(** C10 (frame).  A symbol that is not in the snapshot keeps the record it
    had, present or absent, and gets no target; and so for as many steps
    as it stays out of the snapshots. *)
Theorem unobserved_untouched self symbol Securities steps :
  symbol ∉ Securities.*1 →
  Forall (λ S, symbol ∉ S.*1) steps →
  trailingHighs (ManageRisk self Securities).1 !! symbol = trailingHighs self !! symbol
  ∧ targets_for symbol (ManageRisk self Securities).2 = []
  ∧ trailingHighs (run self steps).1 !! symbol = trailingHighs self !! symbol
  ∧ Forall (λ out, targets_for symbol out = []) (run self steps).2.
Proof.
  intros Habs Hall.
  destruct (absent_untouched self symbol Securities Habs) as [A1 A2].
  split; [exact A1|]. split; [exact A2|].
  clear Habs A1 A2. revert self.
  induction steps as [|S steps IH]; intros self; [by split|].
  apply Forall_cons in Hall as [HS Hall].
  destruct (absent_untouched self symbol S HS) as [A1 A2].
  destruct (IH Hall (ManageRisk self S).1) as [I1 I2].
  rewrite run_cons; cbn [fst snd]. split.
  - by rewrite I1.
  - by apply Forall_cons.
Qed.

(** The sign of the configured number is lost in [__init__]. *)
Lemma init_opp (f : float) : @__init__ K _ _ (- f) = __init__ f.
Proof. unfold __init__. by rewrite FloatOrder.abs_opp. Qed.

(** C7 (sign of the configuration).  The object built from [-f] is the
    object built from [f], so on every sequence of snapshots the two return
    the same lists and go through the same states.  This holds for every
    float [f], the non-negative ones among them. *)
Theorem configuration_sign (f : float) steps :
  @__init__ K _ _ (- f) = __init__ f
  ∧ run (__init__ (- f)) steps = run (__init__ f) steps
  ∧ maximumDrawdownPercent (@__init__ K _ _ (- f)) = abs f.
Proof.
  split; [apply init_opp|]. split; [by rewrite init_opp|].
  simpl. apply FloatOrder.abs_opp.
Qed.

(** C8 (repeated liquidation).  The dictionary holds [maxHigh] for the
    symbol, and in every step of a run the symbol is invested, its high
    does not strictly exceed [maxHigh] and its low is strictly under the
    threshold of [maxHigh].  Then every step of the run returns exactly one
    target for the symbol, its liquidation, and the stored high is still
    [maxHigh] at the end. *)
Theorem repeated_liquidation self symbol (maxHigh : float) steps :
  trailingHighs self !! symbol = Some maxHigh →
  Forall (in_drawdown (maximumDrawdownPercent self) maxHigh symbol) steps →
  Forall (λ out, targets_for symbol out = [liquidation symbol]) (run self steps).2
  ∧ length (run self steps).2 = length steps
  ∧ trailingHighs (run self steps).1 !! symbol = Some maxHigh.
Proof.
  intros Hget Hall. split; [|split; [apply run_length|]].
  - revert self Hget Hall.
    induction steps as [|S steps IH]; intros self Hget Hall; [by constructor|].
    apply Forall_cons in Hall as [(Hnd & security & Hin & Hinv & Hnlt & Hlow) Hall].
    destruct (ManageRisk_view_unique self symbol security S Hnd Hin) as [V1 V2].
    unfold body_at in V1, V2. simpl in V1, V2.
    rewrite Hinv, Hget, Hnlt, Hlow in V1, V2. simpl in V1, V2.
    rewrite run_cons; cbn [fst snd]. apply Forall_cons. split; [exact V2|].
    by apply IH.
  - revert self Hget Hall.
    induction steps as [|S steps IH]; intros self Hget Hall; [done|].
    apply Forall_cons in Hall as [(Hnd & security & Hin & Hinv & Hnlt & Hlow) Hall].
    destruct (ManageRisk_view_unique self symbol security S Hnd Hin) as [V1 V2].
    unfold body_at in V1, V2. simpl in V1, V2.
    rewrite Hinv, Hget, Hnlt, Hlow in V1, V2. simpl in V1, V2.
    rewrite run_cons; cbn [fst snd]. by apply IH.
Qed.

(** C5, as amended (strictly rising high, no trigger).  In every step of a
    run the symbol is invested and its high is strictly above the high
    stored before the step, or nothing is stored.  Then no step of the run
    returns a target for the symbol, whatever the lows. *)
Theorem rising_high_never_triggers self symbol steps :
  high_run PrimFloat.ltb self symbol steps →
  Forall (λ out, targets_for symbol out = []) (run self steps).2.
Proof.
  revert self. induction steps as [|S steps IH]; intros self Hrun; [by constructor|].
  destruct Hrun as (Hnd & (security & Hin & Hinv & Hrel) & Hrest).
  rewrite run_cons; cbn [fst snd]. apply Forall_cons. split; [|by apply IH].
  exact (proj2 (first_or_higher self symbol security S Hnd Hin Hinv Hrel)).
Qed.

End Runs.

(** ** The stored high is the greatest observed high *)

Section TrailingHigh.

Context {K : Type} `{Countable K}.
Implicit Types (symbol : K) (security : Security).
Implicit Types (self : @TrailingStopRiskManagementModel K _ _).
Implicit Types (Securities : list (K * Security)).
Implicit Types (ths : gmap K float) (seen : gmap K (list float)).

Lemma is_maximum_singleton (h : float) : is_maximum h [h].
Proof.
  split; [by left|]. intros h' Hin. apply list_elem_of_singleton in Hin as ->.
  apply FloatOrder.ltb_irrefl.
Qed.

(** A high strictly above the greatest one so far is the new greatest. *)
Lemma is_maximum_advance (m h : float) (l : list float) :
  is_maximum m l → (m <? h) = true → is_maximum h (l ++ [h]).
Proof.
  intros [_ Hub] Hlt. split.
  - apply elem_of_app. right. by left.
  - intros h' Hin. apply elem_of_app in Hin as [Hin|Hin].
    + destruct (h <? h') eqn:E; [|done].
      rewrite <- (Hub h' Hin). symmetry. by apply (FloatOrder.ltb_trans m h h').
    + apply list_elem_of_singleton in Hin as ->. apply FloatOrder.ltb_irrefl.
Qed.

(** A high that is not strictly above the greatest one leaves it greatest. *)
Lemma is_maximum_keep (m h : float) (l : list float) :
  is_maximum m l → (m <? h) = false → is_maximum m (l ++ [h]).
Proof.
  intros [Hin Hub] Hnlt. split.
  - apply elem_of_app. by left.
  - intros h' Hin'. apply elem_of_app in Hin' as [Hin'|Hin'].
    + by apply Hub.
    + by apply list_elem_of_singleton in Hin' as ->.
Qed.

(** When no observed high is a NaN, the greatest one is above all of them
    in the sense of [<=]. *)
Lemma is_maximum_upper_bound (m : float) (l : list float) :
  is_maximum m l → (∀ h, h ∈ l → (h =? h) = true) →
  ∀ h, h ∈ l → (h <=? m) = true.
Proof.
  intros [Hin Hub] Hnum h Hh.
  apply FloatOrder.not_lt_leb; [by apply Hnum..|by apply Hub].
Qed.

Lemma tracks_empty : tracks (∅ : gmap K float) ∅.
Proof. intros symbol. by rewrite !lookup_empty. Qed.

(** One round keeps the dictionary in step with the observed highs. *)
Lemma body_tracks mdp ths (out : list (@PortfolioTarget K)) seen (kvp : K * Security) :
  tracks ths seen →
  tracks (ManageRisk_body mdp (ths, out) kvp).1 (observe seen kvp).
Proof.
  intros Htr symbol. destruct kvp as [k security].
  pose proof (Htr symbol) as Hs. pose proof (Htr k) as Hk.
  unfold ManageRisk_body, observe; simpl.
  destruct (Invested security); simpl.
  - destruct (ths !! k) as [m|] eqn:Ek.
    + destruct Hk as (l & Hl & Hmax). rewrite Hl. simpl.
      destruct (m <? High security) eqn:Elt; simpl.
      * destruct (decide (k = symbol)) as [->|Hne].
        -- rewrite !lookup_insert_eq. eexists; split; [done|].
           by apply (is_maximum_advance m).
        -- by rewrite !lookup_insert_ne.
      * assert (G : match ths !! symbol with
                    | Some m' => ∃ l', <[k:=l ++ [High security]]> seen !! symbol = Some l'
                                       ∧ is_maximum m' l'
                    | None => <[k:=l ++ [High security]]> seen !! symbol = None
                    end).
        { destruct (decide (k = symbol)) as [->|Hne].
          - rewrite Ek, lookup_insert_eq. eexists; split; [done|].
            by apply is_maximum_keep.
          - by rewrite lookup_insert_ne. }
        by destruct (Low security <? m * (1 - mdp)).
    + rewrite Hk. simpl.
      destruct (decide (k = symbol)) as [->|Hne].
      * rewrite !lookup_insert_eq. eexists; split; [done|].
        apply is_maximum_singleton.
      * by rewrite !lookup_insert_ne.
  - destruct (decide (k = symbol)) as [->|Hne].
    + by rewrite !lookup_delete_eq.
    + by rewrite !lookup_delete_ne.
Qed.

Lemma loop_tracks mdp Securities :
  ∀ ths (out : list (@PortfolioTarget K)) seen,
    tracks ths seen →
    tracks (fold_left (ManageRisk_body mdp) Securities (ths, out)).1
           (fold_left observe Securities seen).
Proof.
  induction Securities as [|kvp rest IH]; intros ths out seen Htr; [done|].
  change (fold_left (ManageRisk_body mdp) (kvp :: rest) (ths, out))
    with (fold_left (ManageRisk_body mdp) rest (ManageRisk_body mdp (ths, out) kvp)).
  change (fold_left observe (kvp :: rest) seen)
    with (fold_left observe rest (observe seen kvp)).
  pose proof (body_tracks mdp ths out seen kvp Htr) as Htr'.
  destruct (ManageRisk_body mdp (ths, out) kvp) as [ths' out'].
  by apply IH.
Qed.

(** C4 (invariant of the state).  [seen] lists, for each symbol, the highs
    observed while it was invested since it last came in from absent or
    flat.  If, before a call, the dictionary holds for exactly the symbols
    of [seen] a greatest element of their list, then so it does after the
    call, for the lists extended by the snapshot of the call. *)
Theorem trailing_high_is_maximum self seen Securities :
  tracks (trailingHighs self) seen →
  tracks (trailingHighs (ManageRisk self Securities).1)
         (observe_all seen Securities).
Proof.
  intros Htr. unfold ManageRisk, observe_all; simpl. by apply loop_tracks.
Qed.

(** From the constructor on, after any calls. *)
Lemma run_tracks self seen (steps : list (list (K * Security))) :
  tracks (trailingHighs self) seen →
  tracks (trailingHighs (run self steps).1) (fold_left observe_all steps seen).
Proof.
  revert self seen. induction steps as [|S steps IH]; intros self seen Htr; [done|].
  rewrite run_cons; cbn [fst snd].
  change (fold_left observe_all (S :: steps) seen)
    with (fold_left observe_all steps (observe_all seen S)).
  apply IH. unfold ManageRisk, observe_all; simpl. by apply loop_tracks.
Qed.

Lemma init_tracks (f : float) (steps : list (list (K * Security))) :
  tracks (trailingHighs (run (__init__ f) steps).1) (fold_left observe_all steps ∅).
Proof. apply run_tracks. apply tracks_empty. Qed.

End TrailingHigh.

(** ** The definitions at work *)

Module Checks.

Import Scenario.

(** Scenario A: the first step stores 100 and returns nothing; the second,
    with a low of 94 under the threshold 95, returns the liquidation of [X]
    and keeps 100. *)
Example scenario_A_runs :
  (run fresh scenario_A).2 = [[]; [liquidation X]]
  ∧ trailingHighs (run fresh scenario_A).1 !! X = Some 100.
Proof. split; vm_compute; reflexivity. Qed.

(** Scenario B: flat removes the record; back in at 80, nothing returned. *)
Example scenario_B_runs :
  (run fresh scenario_AB).2 = [[]; [liquidation X]; []; []]
  ∧ trailingHighs (run fresh (take 3 scenario_AB)).1 !! X = None
  ∧ trailingHighs (run fresh scenario_AB).1 !! X = Some 80.
Proof. repeat split; vm_compute; reflexivity. Qed.

(** Scenario C: the high goes from 50 to 55, nothing is returned. *)
Example scenario_C_runs :
  (run fresh scenario_C).2 = [[]; []]
  ∧ trailingHighs (run fresh scenario_C).1 !! Y = Some 55.
Proof. split; vm_compute; reflexivity. Qed.

Lemma threshold_trigger_witness :
  targets_for X (ManageRisk tracking falling).2
  = (if 74 <? 100 * (1 - 0.25) then [liquidation X] else [])
  ∧ (targets_for X (ManageRisk tracking falling).2 = [liquidation X]
     ↔ (74 <? 100 * (1 - 0.25)) = true)
  ∧ ((74 =? 100 * (1 - 0.25)) = true
     → targets_for X (ManageRisk tracking falling).2 = []).
Proof.
  apply (threshold_trigger tracking X (security true 100 74) falling 100).
  - compute_done.
  - right. by left.
  - vm_compute. reflexivity.
  - reflexivity.
  - vm_compute. reflexivity.
Defined.

(** On the threshold itself nothing is returned; under it, the liquidation. *)
Example on_threshold_runs :
  (ManageRisk tracking on_threshold).2 = []
  ∧ (ManageRisk tracking falling).2 = [liquidation X].
Proof. split; vm_compute; reflexivity. Qed.

Lemma establish_or_advance_witness :
  trailingHighs (ManageRisk tracking falling).1 !! Y = Some 55
  ∧ targets_for Y (ManageRisk tracking falling).2 = [].
Proof.
  apply (establish_or_advance tracking Y (security true 55 30) falling).
  - compute_done.
  - right. right. by left.
  - reflexivity.
  - right. exists 50. split; vm_compute; reflexivity.
Defined.

Lemma not_invested_X_away : Forall (not_invested X) X_away.
Proof.
  repeat apply Forall_cons_2; try apply Forall_nil_2;
    intros s Hs; vm_compute in Hs.
  - by apply elem_of_nil in Hs.
  - by apply list_elem_of_singleton in Hs as ->.
  - by apply elem_of_nil in Hs.
Qed.

Lemma flat_eviction_witness :
  trailingHighs (ManageRisk tracking X_flat).1 !! X = None
  ∧ targets_for X (ManageRisk tracking X_flat).2 = []
  ∧ trailingHighs
      (ManageRisk (run (ManageRisk tracking X_flat).1 X_away).1 X_back).1 !! X
    = Some 80
  ∧ targets_for X
      (ManageRisk (run (ManageRisk tracking X_flat).1 X_away).1 X_back).2 = [].
Proof.
  apply (flat_eviction tracking X (security false 60 60) (security true 80 70)
           X_flat X_away X_back).
  - compute_done.
  - right. by left.
  - reflexivity.
  - exact not_invested_X_away.
  - compute_done.
  - by left.
  - reflexivity.
Defined.

Lemma tracks_tracking : tracks (trailingHighs tracking) tracking_seen.
Proof.
  intros symbol. unfold tracking, tracking_seen; simpl.
  destruct (decide (symbol = X)) as [->|HX].
  - rewrite !lookup_insert_eq. eexists; split; [done|]. split.
    + right. by left.
    + intros h Hh. repeat (apply elem_of_cons in Hh as [->|Hh]); try done.
      by apply elem_of_nil in Hh.
  - rewrite !(lookup_insert_ne _ X) by done.
    destruct (decide (symbol = Y)) as [->|HY].
    + rewrite !lookup_insert_eq. eexists; split; [done|].
      split; [by left|]. intros h Hh. by apply list_elem_of_singleton in Hh as ->.
    + rewrite !lookup_insert_ne by done. by rewrite !lookup_empty.
Qed.

Lemma trailing_high_is_maximum_witness :
  tracks (trailingHighs (ManageRisk tracking falling).1)
         (observe_all tracking_seen falling).
Proof.
  apply (trailing_high_is_maximum tracking tracking_seen falling).
  exact tracks_tracking.
Defined.

(** What the two sides of the invariant are after [falling]. *)
Example falling_tracked :
  trailingHighs (ManageRisk tracking falling).1 !! X = Some 100
  ∧ trailingHighs (ManageRisk tracking falling).1 !! Y = Some 55
  ∧ trailingHighs (ManageRisk tracking falling).1 !! W = Some 10
  ∧ observe_all tracking_seen falling !! X = Some [90; 100; 95; 100]
  ∧ observe_all tracking_seen falling !! Y = Some [50; 55]
  ∧ observe_all tracking_seen falling !! W = Some [10].
Proof. repeat split; vm_compute; reflexivity. Qed.

Lemma rising_high_never_triggers_witness :
  Forall (λ out, targets_for X out = []) (run fresh rising).2.
Proof.
  apply (rising_high_never_triggers fresh X rising).
  split; [compute_done|]. split.
  { exists (security true 100 98). split; [by left|]. split; [reflexivity|].
    vm_compute. exact I. }
  split; [compute_done|]. split.
  { exists (security true 101 1). split; [by left|]. split; [reflexivity|].
    vm_compute. reflexivity. }
  split; [compute_done|]. split.
  { exists (security true 102 0). split; [right; by left|]. split; [reflexivity|].
    vm_compute. reflexivity. }
  exact I.
Defined.

(** Against C5 as it is stated, with [>=]: in scenario A each high is at
    least the high stored before the step (nothing is stored at first, then
    100 meets 100), and the second step returns the liquidation of [X]. *)
Lemma equal_high_triggers :
  high_run (λ maxHigh high, maxHigh <=? high) fresh X scenario_A
  ∧ (run fresh scenario_A).2 = [[]; [liquidation X]]
  ∧ ¬ Forall (λ out, targets_for X out = []) (run fresh scenario_A).2.
Proof.
  split; [|split].
  - split; [compute_done|]. split.
    { exists (security true 100 98). split; [by left|]. split; [reflexivity|].
      vm_compute. exact I. }
    split; [compute_done|]. split.
    { exists (security true 100 94). split; [by left|]. split; [reflexivity|].
      vm_compute. reflexivity. }
    exact I.
  - vm_compute. reflexivity.
  - intros Hall. apply Forall_cons in Hall as [_ Hall].
    apply Forall_cons in Hall as [Hx _]. vm_compute in Hx. discriminate Hx.
Qed.

Lemma emission_keeps_state_witness :
  let mdp := maximumDrawdownPercent tracking in
  let st := fold_left (ManageRisk_body mdp) [(W, security true 10 9)]
              (trailingHighs tracking, []) in
  let st' := ManageRisk_body mdp st (X, security true 100 74) in
  st'.2 = st.2 ++ [liquidation X]
  ∧ st'.1 = st.1
  ∧ is_Some (trailingHighs tracking !! X)
  ∧ trailingHighs (ManageRisk tracking falling).1 !! X = trailingHighs tracking !! X.
Proof.
  apply (emission_keeps_state tracking [(W, security true 10 9)]
           [(Y, security true 55 30)] (X, security true 100 74)).
  - compute_done.
  - intros E. vm_compute in E. discriminate E.
Defined.

Lemma in_drawdown_X_stuck :
  Forall (in_drawdown (maximumDrawdownPercent tracking) 100 X) X_stuck.
Proof.
  repeat apply Forall_cons_2; try apply Forall_nil_2; (split; [compute_done|]).
  - exists (security true 100 74). split; [by left|]. repeat split; vm_compute; reflexivity.
  - exists (security true 99 70). split; [by left|]. repeat split; vm_compute; reflexivity.
  - exists (security true 100 0). split; [right; by left|].
    repeat split; vm_compute; reflexivity.
Qed.

Lemma repeated_liquidation_witness :
  Forall (λ out, targets_for X out = [liquidation X]) (run tracking X_stuck).2
  ∧ length (run tracking X_stuck).2 = length X_stuck
  ∧ trailingHighs (run tracking X_stuck).1 !! X = Some 100.
Proof.
  apply (repeated_liquidation tracking X 100 X_stuck).
  - vm_compute. reflexivity.
  - exact in_drawdown_X_stuck.
Defined.

(** The three steps of [X_stuck] each return the liquidation of [X]. *)
Example X_stuck_runs :
  (run tracking X_stuck).2 = [[liquidation X]; [liquidation X]; [liquidation X]].
Proof. vm_compute. reflexivity. Qed.

Lemma output_in_snapshot_order_witness :
  (ManageRisk tracking both_falling).2
  = (λ kvp, liquidation kvp.1) <$>
      filter (λ kvp, triggers (maximumDrawdownPercent tracking)
                       (trailingHighs tracking) kvp = true) both_falling.
Proof.
  apply (output_in_snapshot_order tracking both_falling).
  compute_done.
Defined.

(** [Y] comes before [X] in the snapshot, and in the returned list. *)
Example both_falling_runs :
  (ManageRisk tracking both_falling).2 = [liquidation Y; liquidation X].
Proof. vm_compute. reflexivity. Qed.

Lemma unobserved_untouched_witness :
  trailingHighs (ManageRisk tracking only_Y).1 !! X = trailingHighs tracking !! X
  ∧ targets_for X (ManageRisk tracking only_Y).2 = []
  ∧ trailingHighs (run tracking [only_Y; []; only_Y]).1 !! X
    = trailingHighs tracking !! X
  ∧ Forall (λ out, targets_for X out = []) (run tracking [only_Y; []; only_Y]).2.
Proof.
  apply (unobserved_untouched tracking X only_Y [only_Y; []; only_Y]).
  - compute_done.
  - repeat apply Forall_cons_2; try apply Forall_nil_2; compute_done.
Defined.

(** The two signs of the default fraction give one object. *)
Example configuration_sign_runs :
  @__init__ string _ _ (- default_maximumDrawdownPercent) = fresh
  ∧ (run (__init__ (- default_maximumDrawdownPercent)) scenario_AB).2
    = [[]; [liquidation X]; []; []].
Proof. split; vm_compute; reflexivity. Qed.

End Checks.

(** ** More on one call: what is returned, what is stored *)

Module FloatSign.

(** [abs] of a number is never under zero. *)
Lemma abs_not_negative (x : float) : (abs x <? 0) = false.
Proof.
  rewrite FloatAxioms.ltb_spec, abs_spec.
  change (Prim2SF 0) with (S754_zero false).
  unfold SFltb. by destruct (Prim2SF x) as [s|s| |s m e].
Qed.

(** [<] never holds both ways. *)
Lemma ltb_asym (x y : float) : (x <? y) = true → (y <? x) = false.
Proof.
  intros Hxy. destruct (y <? x) eqn:Hyx; [|done].
  rewrite <- (FloatOrder.ltb_irrefl x). symmetry.
  by apply (FloatOrder.ltb_trans x y x).
Qed.

End FloatSign.

Section Returned.

Context {K : Type} `{Countable K}.
Implicit Types (symbol : K) (security : Security).
Implicit Types (self : @TrailingStopRiskManagementModel K _ _).
Implicit Types (Securities : list (K * Security)).

(** The list a loop ends with is the list it started with, followed by what
    the same loop appends to an empty list. *)
Lemma loop_prefix mdp Securities :
  ∀ (ths : gmap K float) (out : list (@PortfolioTarget K)),
    fold_left (ManageRisk_body mdp) Securities (ths, out)
    = ((fold_left (ManageRisk_body mdp) Securities (ths, [])).1,
       out ++ (fold_left (ManageRisk_body mdp) Securities (ths, [])).2).
Proof.
  induction Securities as [|kvp rest IH]; intros ths out.
  - simpl. by rewrite app_nil_r.
  - change (fold_left (ManageRisk_body mdp) (kvp :: rest) (ths, out))
      with (fold_left (ManageRisk_body mdp) rest (ManageRisk_body mdp (ths, out) kvp)).
    change (fold_left (ManageRisk_body mdp) (kvp :: rest) (ths, []))
      with (fold_left (ManageRisk_body mdp) rest (ManageRisk_body mdp (ths, []) kvp)).
    pose proof (body_output mdp ths out kvp) as O1.
    pose proof (body_output mdp ths [] kvp) as O2.
    assert (S1 : (ManageRisk_body mdp (ths, out) kvp).1
                 = (ManageRisk_body mdp (ths, []) kvp).1).
    { unfold ManageRisk_body; simpl.
      destruct (negb (Invested kvp.2)); [done|].
      destruct (ths !! kvp.1) as [m|]; [|done].
      destruct (m <? High kvp.2); [done|].
      by destruct (Low kvp.2 <? m * (1 - mdp)). }
    destruct (ManageRisk_body mdp (ths, out) kvp) as [ths1 out1].
    destruct (ManageRisk_body mdp (ths, []) kvp) as [ths2 out2].
    simpl in O1, O2, S1. subst ths2 out1 out2.
    set (new := if triggers mdp ths kvp then [liquidation kvp.1] else []).
    rewrite (IH ths1 (out ++ new)), (IH ths1 new). cbn [fst snd].
    by rewrite app_assoc.
Qed.

(** Every target a loop appends is a liquidation, of the symbol of an
    invested entry. *)
Lemma loop_targets mdp Securities :
  ∀ (ths : gmap K float) (out : list (@PortfolioTarget K)) t,
    t ∈ (fold_left (ManageRisk_body mdp) Securities (ths, out)).2 →
    t ∈ out
    ∨ (t = liquidation (Symbol t)
       ∧ ∃ security, (Symbol t, security) ∈ Securities ∧ Invested security = true).
Proof.
  induction Securities as [|kvp rest IH]; intros ths out t Ht; [by left|].
  change (fold_left (ManageRisk_body mdp) (kvp :: rest) (ths, out))
    with (fold_left (ManageRisk_body mdp) rest (ManageRisk_body mdp (ths, out) kvp)) in Ht.
  pose proof (body_output mdp ths out kvp) as O.
  destruct (ManageRisk_body mdp (ths, out) kvp) as [ths1 out1]. simpl in O.
  destruct (IH ths1 out1 t Ht) as [Hin|(Hliq & security & Hin & Hinv)].
  - rewrite O in Hin. apply elem_of_app in Hin as [Hin|Hin]; [by left|].
    right. destruct (triggers mdp ths kvp) eqn:T; [|by apply elem_of_nil in Hin].
    apply list_elem_of_singleton in Hin as ->. split; [done|].
    exists kvp.2. simpl. rewrite <- surjective_pairing. split; [by left|].
    unfold triggers in T. by apply andb_true_iff in T as [T _].
  - right. split; [done|]. exists security. split; [by right|done].
Qed.

(** X1 (only liquidations, only of invested entries).  Every target a call
    returns has the quantity 0, and its symbol is the symbol of an entry of
    the snapshot that is invested: nothing else is ever asked for, and never
    for a symbol that the snapshot does not hold invested. *)
Theorem returns_only_liquidations self Securities (t : @PortfolioTarget K) :
  t ∈ (ManageRisk self Securities).2 →
  Quantity t = 0%Z
  ∧ t = liquidation (Symbol t)
  ∧ ∃ security, (Symbol t, security) ∈ Securities ∧ Invested security = true.
Proof.
  intros Ht. unfold ManageRisk in Ht. simpl in Ht.
  destruct (loop_targets _ _ _ _ _ Ht) as [Hnil|[Hliq Hex]].
  - by apply elem_of_nil in Hnil.
  - split; [by rewrite Hliq|]. by split.
Qed.

(** X2 (at most one target per symbol).  A call returns no more targets than
    the snapshot has entries, and no two of them for the same symbol. *)
Theorem returns_one_per_symbol self Securities :
  NoDup Securities.*1 →
  length (ManageRisk self Securities).2 ≤ length Securities
  ∧ NoDup (Symbol <$> (ManageRisk self Securities).2).
Proof.
  intros Hnd. unfold ManageRisk; simpl.
  rewrite (loop_output _ (trailingHighs self) Securities (trailingHighs self) [] Hnd) by done.
  rewrite app_nil_l. split.
  - rewrite length_fmap. apply length_filter.
  - rewrite <- list_fmap_compose.
    change (Symbol ∘ (λ kvp : K * Security, liquidation kvp.1)) with (@fst K Security).
    apply (sublist_NoDup _ Securities.*1); [exact Hnd|].
    apply fmap_sublist, sublist_filter.
Qed.

(** The record a round leaves for its symbol: none for a flat entry, and
    for an invested one the larger of the stored high and the entry's. *)
Lemma body_at_record mdp symbol (o : option float) (l : list (@PortfolioTarget K))
    security :
  (body_at mdp symbol (o, l) security).1
  = if Invested security
    then match o with
         | Some m => if m <? High security then Some (High security) else Some m
         | None => Some (High security)
         end
    else None.
Proof.
  unfold body_at. simpl. destruct (Invested security); simpl; [|done].
  destruct o as [m|]; [|done]. destruct (m <? High security); [done|].
  by destruct (below_threshold mdp m security).
Qed.

(** In a dictionary, the entry of a key is the only one. *)
Lemma entry_unique symbol (s1 s2 : Security) Securities :
  NoDup Securities.*1 → (symbol, s1) ∈ Securities → (symbol, s2) ∈ Securities → s1 = s2.
Proof.
  intros Hnd H1 H2.
  pose proof (entries_for_unique symbol s1 Securities Hnd H1) as E1.
  pose proof (entries_for_unique symbol s2 Securities Hnd H2) as E2.
  congruence.
Qed.

(** X3 (which symbols have a record after a call).  After a call the
    symbols with a record are those that had one and are not in the
    snapshot, together with those the snapshot holds invested. *)
Theorem records_after_call self Securities :
  NoDup Securities.*1 →
  dom (trailingHighs (ManageRisk self Securities).1)
  = (dom (trailingHighs self) ∖ list_to_set Securities.*1)
    ∪ list_to_set (filter (λ kvp, Invested kvp.2 = true) Securities).*1.
Proof.
  intros Hnd. apply set_eq. intros k.
  rewrite elem_of_union, elem_of_difference, !elem_of_dom, !elem_of_list_to_set.
  destruct (decide (k ∈ Securities.*1)) as [Hin|Hout].
  - apply list_elem_of_fmap in Hin as ([k' security] & -> & Hin). cbn [fst].
    destruct (ManageRisk_view_unique self k' security Securities Hnd Hin) as [V _].
    rewrite V, body_at_record.
    assert (Hkeys : k' ∈ Securities.*1)
      by (apply list_elem_of_fmap; by exists (k', security)).
    split.
    + intros Hsome. right. apply list_elem_of_fmap. exists (k', security).
      split; [done|]. apply list_elem_of_filter. split; [|done]. simpl.
      destruct (Invested security); [done|]. by destruct Hsome.
    + intros [[_ Hno]|Hinv]; [done|].
      apply list_elem_of_fmap in Hinv as ([k2 s2] & Hk & Hf). simpl in Hk. subst k2.
      apply list_elem_of_filter in Hf as [Hi Hin2]. simpl in Hi.
      rewrite (entry_unique k' security s2 Securities Hnd Hin Hin2), Hi.
      destruct (trailingHighs self !! k') as [m|]; [|by eexists].
      destruct (m <? High s2); by eexists.
  - destruct (absent_untouched self k Securities Hout) as [A _]. rewrite A.
    split; [intros; by left|]. intros [[Hsome _]|Hinv]; [done|].
    exfalso. apply Hout.
    apply list_elem_of_fmap in Hinv as (kvp & -> & Hf).
    apply list_elem_of_filter in Hf as [_ Hin]. apply list_elem_of_fmap. by exists kvp.
Qed.

(** X5 (the same snapshot again).  A second call on the snapshot of the call
    before leaves every record as the first call left it. *)
Theorem same_snapshot_again self Securities :
  NoDup Securities.*1 →
  trailingHighs (ManageRisk (ManageRisk self Securities).1 Securities).1
  = trailingHighs (ManageRisk self Securities).1.
Proof.
  intros Hnd. apply map_eq. intros k.
  destruct (decide (k ∈ Securities.*1)) as [Hin|Hout].
  - apply list_elem_of_fmap in Hin as ([k' security] & -> & Hin). cbn [fst].
    destruct (ManageRisk_view_unique (ManageRisk self Securities).1 k' security
                Securities Hnd Hin) as [V2 _].
    destruct (ManageRisk_view_unique self k' security Securities Hnd Hin) as [V1 _].
    rewrite V2, body_at_record, V1, body_at_record.
    destruct (Invested security); [|done].
    destruct (trailingHighs self !! k') as [m|].
    + destruct (m <? High security) eqn:E.
      * by rewrite FloatOrder.ltb_irrefl.
      * by rewrite E.
    + by rewrite FloatOrder.ltb_irrefl.
  - by destruct (absent_untouched (ManageRisk self Securities).1 k Securities Hout)
      as [-> _].
Qed.

(** X6 (the order of the snapshot).  Two snapshots with the same entries in
    another order leave the same records, and return the same targets, in
    another order. *)
Theorem snapshot_order_irrelevant self Securities Securities' :
  NoDup Securities.*1 →
  Securities ≡ₚ Securities' →
  trailingHighs (ManageRisk self Securities).1
  = trailingHighs (ManageRisk self Securities').1
  ∧ (ManageRisk self Securities).2 ≡ₚ (ManageRisk self Securities').2.
Proof.
  intros Hnd Hperm.
  assert (Hnd' : NoDup Securities'.*1) by (by rewrite <- Hperm).
  split.
  - apply map_eq. intros k.
    destruct (decide (k ∈ Securities.*1)) as [Hin|Hout].
    + apply list_elem_of_fmap in Hin as ([k' security] & -> & Hin). cbn [fst].
      assert (Hin' : (k', security) ∈ Securities') by (by rewrite <- Hperm).
      destruct (ManageRisk_view_unique self k' security Securities Hnd Hin) as [-> _].
      by destruct (ManageRisk_view_unique self k' security Securities' Hnd' Hin') as [-> _].
    + assert (Hout' : k ∉ Securities'.*1) by (by rewrite <- Hperm).
      destruct (absent_untouched self k Securities Hout) as [-> _].
      by destruct (absent_untouched self k Securities' Hout') as [-> _].
  - unfold ManageRisk; simpl.
    rewrite (loop_output _ (trailingHighs self) Securities (trailingHighs self) [] Hnd) by done.
    rewrite (loop_output _ (trailingHighs self) Securities' (trailingHighs self) [] Hnd') by done.
    rewrite !app_nil_l. by rewrite Hperm.
Qed.

(** X8 (one symbol at a time).  What a call does to a symbol, its record and
    its targets, depends on the fraction, on the record the symbol had and
    on the entries of that symbol alone. *)
Theorem symbol_in_isolation self self' symbol Securities Securities' :
  maximumDrawdownPercent self = maximumDrawdownPercent self' →
  trailingHighs self !! symbol = trailingHighs self' !! symbol →
  entries_for symbol Securities = entries_for symbol Securities' →
  trailingHighs (ManageRisk self Securities).1 !! symbol
  = trailingHighs (ManageRisk self' Securities').1 !! symbol
  ∧ targets_for symbol (ManageRisk self Securities).2
    = targets_for symbol (ManageRisk self' Securities').2.
Proof.
  intros Hf Hr He.
  destruct (ManageRisk_view self symbol Securities) as [V1 V2].
  destruct (ManageRisk_view self' symbol Securities') as [V1' V2'].
  rewrite V1, V2, V1', V2'. by rewrite Hf, Hr, He.
Qed.

End Returned.

(** ** More on successive calls *)

Section MoreRuns.

Context {K : Type} `{Countable K}.
Implicit Types (symbol : K) (security : Security).
Implicit Types (self : @TrailingStopRiskManagementModel K _ _).
Implicit Types (Securities : list (K * Security)).
Implicit Types (steps : list (list (K * Security))).

(** While the symbol stays invested its record is there, and it is the
    starting one or a strictly higher one. *)
Lemma run_high_grows symbol steps :
  ∀ self (c : float),
    trailingHighs self !! symbol = Some c →
    high_run (λ _ _, true) self symbol steps →
    ∃ m', trailingHighs (run self steps).1 !! symbol = Some m'
          ∧ (m' = c ∨ (c <? m') = true).
Proof.
  induction steps as [|S steps IH]; intros self c Hc Hrun.
  - exists c. split; [done|by left].
  - destruct Hrun as (Hnd & (security & Hin & Hinv & _) & Hrest).
    destruct (ManageRisk_view_unique self symbol security S Hnd Hin) as [V _].
    rewrite body_at_record, Hinv, Hc in V.
    rewrite run_cons; cbn [fst snd].
    destruct (c <? High security) eqn:E.
    + destruct (IH _ _ V Hrest) as (m' & Hm' & [->|Hlt]).
      * exists (High security). split; [done|by right].
      * exists m'. split; [done|]. right.
        by apply (FloatOrder.ltb_trans c (High security) m').
    + exact (IH _ _ V Hrest).
Qed.

(** X4 (the stored high never falls).  Over any run of steps in which the
    symbol stays invested, the record of the symbol stays, and the stored
    high at the end is the one at the start or a strictly higher one; it is
    never under the one at the start. *)
Theorem stored_high_never_falls self symbol (m : float) steps :
  trailingHighs self !! symbol = Some m →
  high_run (λ _ _, true) self symbol steps →
  ∃ m', trailingHighs (run self steps).1 !! symbol = Some m'
        ∧ (m' = m ∨ (m <? m') = true)
        ∧ (m' <? m) = false.
Proof.
  intros Hm Hrun.
  destruct (run_high_grows symbol steps self m Hm Hrun) as (m' & Hm' & Hcase).
  exists m'. split; [done|]. split; [done|].
  destruct Hcase as [->|Hlt].
  - apply FloatOrder.ltb_irrefl.
  - by apply FloatSign.ltb_asym.
Qed.

(** A call on two snapshots put end to end is the call on the first followed
    by the call on the second. *)
Lemma ManageRisk_app self Securities Securities' :
  ManageRisk self (Securities ++ Securities')
  = ((ManageRisk (ManageRisk self Securities).1 Securities').1,
     (ManageRisk self Securities).2
     ++ (ManageRisk (ManageRisk self Securities).1 Securities').2).
Proof.
  unfold ManageRisk. cbn [fst snd maximumDrawdownPercent trailingHighs].
  rewrite fold_left_app.
  destruct (fold_left (ManageRisk_body (maximumDrawdownPercent self)) Securities
              (trailingHighs self, [])) as [ths1 out1].
  rewrite (loop_prefix _ Securities' ths1 out1). by cbn [fst snd].
Qed.

Lemma ManageRisk_nil self : ManageRisk self [] = (self, []).
Proof. by destruct self. Qed.

(** X7 (a snapshot in pieces).  Calls on the pieces of a snapshot, one after
    the other, end in the state of one call on the whole snapshot, and the
    lists they return, put end to end, are the list that one call returns. *)
Theorem snapshot_in_pieces self steps :
  (run self steps).1 = (ManageRisk self (concat steps)).1
  ∧ concat (run self steps).2 = (ManageRisk self (concat steps)).2.
Proof.
  revert self. induction steps as [|S steps IH]; intros self.
  - cbn [run concat fst snd]. by rewrite ManageRisk_nil.
  - destruct (IH (ManageRisk self S).1) as [I1 I2].
    rewrite run_cons. cbn [fst snd concat].
    rewrite ManageRisk_app. cbn [fst snd]. by rewrite I1, I2.
Qed.

Lemma run_fraction self steps :
  maximumDrawdownPercent (run self steps).1 = maximumDrawdownPercent self.
Proof.
  revert self. induction steps as [|S steps IH]; intros self; [done|].
  rewrite run_cons; cbn [fst snd]. by rewrite IH.
Qed.

(** X9 (the fraction).  Whatever number the model is built from, and after
    any calls, the fraction it holds is the absolute value of that number,
    and it is not under zero. *)
Theorem fraction_fixed_not_negative (f : float) steps :
  maximumDrawdownPercent (run (@__init__ K _ _ f) steps).1 = abs f
  ∧ (maximumDrawdownPercent (run (@__init__ K _ _ f) steps).1 <? 0) = false.
Proof.
  rewrite run_fraction. split; [done|]. apply FloatSign.abs_not_negative.
Qed.

End MoreRuns.

(** ** The moving averages *)

Section MovingAverage.

Variable np_sum : list float → float.

Lemma appendleft_maxlen (x : float) (d : deque) : maxlen (appendleft x d) = maxlen d.
Proof. done. Qed.

(** On a deque within its bound, [appendleft] keeps the first [maxlen] of
    the items with the new one in front. *)
Lemma appendleft_items (x : float) (d : deque) :
  length (items d) ≤ maxlen d →
  items (appendleft x d) = take (maxlen d) (x :: items d).
Proof.
  intros Hle. unfold appendleft. cbn [items].
  destruct (maxlen d <? length (x :: items d))%nat eqn:E.
  - apply Nat.ltb_lt in E. cbn [length] in E.
    assert (Hfull : length (items d) = maxlen d) by lia.
    rewrite removelast_firstn_len. cbn [length Nat.pred]. by rewrite Hfull.
  - apply Nat.ltb_ge in E. by rewrite take_ge.
Qed.

Lemma appendleft_bound (x : float) (d : deque) :
  length (items d) ≤ maxlen d →
  length (items (appendleft x d)) ≤ maxlen (appendleft x d).
Proof.
  intros Hle. rewrite appendleft_items, appendleft_maxlen by done.
  rewrite length_take. lia.
Qed.

(** Feeding values to an indicator whose deque is within its bound. *)
Lemma feed_from (inputs : list float) :
  ∀ self : CSMAWithWarmUp.t,
    let d := CSMAWithWarmUp.queue self in
    let r := CSMAWithWarmUp.feed np_sum self inputs in
    length (items d) ≤ maxlen d →
    items (CSMAWithWarmUp.queue r.1) = take (maxlen d) (rev inputs ++ items d)
    ∧ maxlen (CSMAWithWarmUp.queue r.1) = maxlen d
    ∧ CSMAWithWarmUp.WarmUpPeriod r.1 = CSMAWithWarmUp.WarmUpPeriod self
    ∧ CSMAWithWarmUp.Name r.1 = CSMAWithWarmUp.Name self
    ∧ r.2 = (λ i, Nat.eqb (min (maxlen d) (length (items d) + S i)) (maxlen d))
              <$> seq 0 (length inputs)
    ∧ (inputs ≠ [] →
       CSMAWithWarmUp.Value r.1
       = np_sum (take (maxlen d) (rev inputs ++ items d))
         / float_of_nat (min (maxlen d) (length inputs + length (items d)))).
Proof.
  induction inputs as [|x inputs IH]; intros self d r Hle.
  - subst r. cbn [CSMAWithWarmUp.feed fst snd rev app length seq fmap list_fmap].
    repeat split; [by rewrite take_ge|done].
  - subst r. cbn [CSMAWithWarmUp.feed fst snd].
    set (self1 := (CSMAWithWarmUp.Update np_sum self x).1).
    assert (Hq1 : CSMAWithWarmUp.queue self1 = appendleft x d) by done.
    assert (Hle1 : length (items (CSMAWithWarmUp.queue self1))
                   ≤ maxlen (CSMAWithWarmUp.queue self1))
      by (rewrite Hq1; by apply appendleft_bound).
    destruct (IH self1 Hle1) as (I1 & I2 & I3 & I4 & I5 & I6).
    rewrite Hq1, appendleft_maxlen in I1, I2, I5, I6.
    rewrite appendleft_items in I1, I5, I6 by done.
    assert (Hwin : take (maxlen d) (rev inputs ++ take (maxlen d) (x :: items d))
                   = take (maxlen d) (rev (x :: inputs) ++ items d)).
    { cbn [rev]. rewrite <- app_assoc. cbn [app].
      rewrite !take_app, take_take.
      by replace (Nat.min (maxlen d - length (rev inputs)) (maxlen d))%nat
        with (maxlen d - length (rev inputs))%nat by lia. }
    assert (Hlen1 : length (take (maxlen d) (x :: items d))
                    = min (maxlen d) (S (length (items d))))
      by (by rewrite length_take).
    split; [by rewrite I1|]. split; [done|]. split; [done|]. split; [done|]. split.
    + cbn [length seq fmap list_fmap]. f_equal.
      * cbn [CSMAWithWarmUp.Update snd]. fold d.
        rewrite appendleft_items, appendleft_maxlen by done.
        rewrite Hlen1. f_equal. lia.
      * rewrite I5, <- fmap_S_seq, <- list_fmap_compose.
        apply list_fmap_ext. intros i n _. cbn [compose]. rewrite Hlen1.
        f_equal. lia.
    + intros _. destruct inputs as [|y inputs'].
      * cbn [CSMAWithWarmUp.feed fst]. subst self1.
        cbn [CSMAWithWarmUp.Update fst CSMAWithWarmUp.Value]. fold d.
        rewrite appendleft_items by done. cbn [rev app length].
        rewrite length_take. by cbn [length].
      * rewrite I6 by done. rewrite Hwin, Hlen1. do 2 f_equal.
        cbn [length]. lia.
Qed.

(** X10 (the window).  After any inputs to a new indicator of a period, the
    deque holds the last [period] of them, the newest first (all of them
    when there are fewer), and once there has been an input, [Value] is
    [np.sum] of these divided by their number. *)
Theorem window_of_last_inputs (name : string) (period : nat) (inputs : list float) :
  let r := CSMAWithWarmUp.feed np_sum (CSMAWithWarmUp.__init__ name period) inputs in
  items (CSMAWithWarmUp.queue r.1) = take period (rev inputs)
  ∧ length (items (CSMAWithWarmUp.queue r.1)) = min period (length inputs)
  ∧ (inputs ≠ [] →
     CSMAWithWarmUp.Value r.1
     = np_sum (take period (rev inputs)) / float_of_nat (min period (length inputs))).
Proof.
  intros r.
  destruct (feed_from inputs (CSMAWithWarmUp.__init__ name period))
    as (I1 & _ & _ & _ & _ & I6); [cbn; lia|].
  cbn [CSMAWithWarmUp.__init__ CSMAWithWarmUp.queue items maxlen length] in I1, I6.
  rewrite app_nil_r in I1, I6. rewrite Nat.add_0_r in I6.
  fold r in I1, I6. split; [done|]. split; [|done].
  rewrite I1, length_take, length_rev. done.
Qed.

(** X11 (ready after [period] inputs).  Of the inputs to a new indicator,
    the [n]-th [Update] returns [True] exactly when [n] is at least the
    period, which is also its [WarmUpPeriod]: [False] for the first
    [period - 1] inputs and [True] from then on. *)
Theorem ready_after_period (name : string) (period : nat) (inputs : list float) :
  let r := CSMAWithWarmUp.feed np_sum (CSMAWithWarmUp.__init__ name period) inputs in
  r.2 = (λ n, Nat.leb period n) <$> seq 1 (length inputs)
  ∧ CSMAWithWarmUp.WarmUpPeriod r.1 = period.
Proof.
  intros r.
  destruct (feed_from inputs (CSMAWithWarmUp.__init__ name period))
    as (_ & _ & I3 & _ & I5 & _); [cbn; lia|].
  cbn [CSMAWithWarmUp.__init__ CSMAWithWarmUp.queue CSMAWithWarmUp.WarmUpPeriod
       items maxlen length] in I3, I5.
  fold r in I3, I5. split; [|done].
  rewrite I5, <- fmap_S_seq, <- list_fmap_compose.
  apply list_fmap_ext. intros i n _. cbn [compose].
  destruct (Nat.leb_spec period (S n)) as [Hle|Hgt].
  - apply Nat.eqb_eq. lia.
  - apply Nat.eqb_neq. lia.
Qed.

(** X12 (with or without [WarmUpPeriod]).  On the same inputs, a new
    [CSMAWithWarmUp] and a new [CSMAWithoutWarmUp] of the same period return
    the same booleans and end with the same deque and the same [Value]. *)
Theorem warm_up_makes_no_difference (name name' : string) (period : nat)
    (inputs : list float) :
  let ra := CSMAWithWarmUp.feed np_sum (CSMAWithWarmUp.__init__ name period) inputs in
  let rb := CSMAWithoutWarmUp.feed np_sum (CSMAWithoutWarmUp.__init__ name' period) inputs in
  CSMAWithWarmUp.queue ra.1 = CSMAWithoutWarmUp.queue rb.1
  ∧ CSMAWithWarmUp.Value ra.1 = CSMAWithoutWarmUp.Value rb.1
  ∧ ra.2 = rb.2.
Proof.
  revert name name'.
  assert (G : ∀ (a : CSMAWithWarmUp.t) (b : CSMAWithoutWarmUp.t),
             CSMAWithWarmUp.queue a = CSMAWithoutWarmUp.queue b →
             CSMAWithWarmUp.Value a = CSMAWithoutWarmUp.Value b →
             CSMAWithWarmUp.queue (CSMAWithWarmUp.feed np_sum a inputs).1
             = CSMAWithoutWarmUp.queue (CSMAWithoutWarmUp.feed np_sum b inputs).1
             ∧ CSMAWithWarmUp.Value (CSMAWithWarmUp.feed np_sum a inputs).1
               = CSMAWithoutWarmUp.Value (CSMAWithoutWarmUp.feed np_sum b inputs).1
             ∧ (CSMAWithWarmUp.feed np_sum a inputs).2
               = (CSMAWithoutWarmUp.feed np_sum b inputs).2).
  { induction inputs as [|x inputs IH]; intros a b Hq Hv; [done|].
    cbn [CSMAWithWarmUp.feed CSMAWithoutWarmUp.feed fst snd].
    set (a1 := (CSMAWithWarmUp.Update np_sum a x).1).
    set (b1 := (CSMAWithoutWarmUp.Update np_sum b x).1).
    assert (Hq1 : CSMAWithWarmUp.queue a1 = CSMAWithoutWarmUp.queue b1)
      by (subst a1 b1; cbn; by rewrite Hq).
    assert (Hv1 : CSMAWithWarmUp.Value a1 = CSMAWithoutWarmUp.Value b1)
      by (subst a1 b1; cbn; by rewrite Hq).
    destruct (IH a1 b1 Hq1 Hv1) as (J1 & J2 & J3).
    split; [done|]. split; [done|].
    f_equal; [|done]. cbn. by rewrite Hq. }
  intros name name' ra rb. by apply G.
Qed.

End MovingAverage.

(** ** More of the definitions at work *)

Module MoreChecks.

Import Scenario.

Lemma returns_only_liquidations_witness :
  Quantity (liquidation X) = 0%Z
  ∧ liquidation X = liquidation (Symbol (liquidation X))
  ∧ ∃ security, (Symbol (liquidation X), security) ∈ both_falling
                ∧ Invested security = true.
Proof.
  apply (returns_only_liquidations tracking both_falling (liquidation X)).
  vm_compute. right. left.
Defined.

Lemma returns_one_per_symbol_witness :
  length (ManageRisk tracking both_falling).2 ≤ length both_falling
  ∧ NoDup (Symbol <$> (ManageRisk tracking both_falling).2).
Proof.
  apply (returns_one_per_symbol tracking both_falling). compute_done.
Defined.

Lemma records_after_call_witness :
  dom (trailingHighs (ManageRisk tracking X_flat).1)
  = (dom (trailingHighs tracking) ∖ list_to_set X_flat.*1)
    ∪ list_to_set (filter (λ kvp, Invested kvp.2 = true) X_flat).*1.
Proof.
  apply (records_after_call tracking X_flat). compute_done.
Defined.

(** After [X_flat] only [Y] has a record; after [falling], all three. *)
Example records_after_call_runs :
  dom (trailingHighs (ManageRisk tracking X_flat).1) = {[Y]}
  ∧ dom (trailingHighs (ManageRisk tracking falling).1) = {[X; Y; W]}.
Proof. split; apply set_eq; intros k; vm_compute; tauto. Qed.

Lemma stored_high_never_falls_witness :
  ∃ m', trailingHighs (run tracking [falling; both_falling; rising !!! 1%nat]).1 !! X
        = Some m'
        ∧ (m' = 100 ∨ (100 <? m') = true)
        ∧ (m' <? 100) = false.
Proof.
  apply (stored_high_never_falls tracking X 100
           [falling; both_falling; rising !!! 1%nat]).
  - vm_compute. reflexivity.
  - split; [compute_done|]. split.
    { exists (security true 100 74). split; [right; by left|]. done. }
    split; [compute_done|]. split.
    { exists (security true 99 70). split; [right; right; by left|]. split; [done|].
      vm_compute. reflexivity. }
    split; [compute_done|]. split.
    { exists (security true 101 1). split; [by left|]. split; [done|].
      vm_compute. reflexivity. }
    exact I.
Defined.

(** The high of [X] goes from 100 to 101 over these three steps. *)
Example stored_high_runs :
  trailingHighs (run tracking [falling; both_falling; rising !!! 1%nat]).1 !! X
  = Some 101.
Proof. vm_compute. reflexivity. Qed.

Lemma same_snapshot_again_witness :
  trailingHighs (ManageRisk (ManageRisk tracking falling).1 falling).1
  = trailingHighs (ManageRisk tracking falling).1.
Proof.
  apply (same_snapshot_again tracking falling). compute_done.
Defined.

(** The records stay, the targets do not: [Y] rose in the first call and is
    under its new threshold in the second. *)
Example same_snapshot_again_runs :
  (ManageRisk tracking falling).2 = [liquidation X]
  ∧ (ManageRisk (ManageRisk tracking falling).1 falling).2
    = [liquidation X; liquidation Y].
Proof. split; vm_compute; reflexivity. Qed.

Lemma snapshot_order_irrelevant_witness :
  trailingHighs (ManageRisk tracking both_falling).1
  = trailingHighs (ManageRisk tracking (rev both_falling)).1
  ∧ (ManageRisk tracking both_falling).2 ≡ₚ (ManageRisk tracking (rev both_falling)).2.
Proof.
  apply (snapshot_order_irrelevant tracking both_falling (rev both_falling)).
  - compute_done.
  - apply Permutation_rev.
Defined.

Example snapshot_order_runs :
  (ManageRisk tracking both_falling).2 = [liquidation Y; liquidation X]
  ∧ (ManageRisk tracking (rev both_falling)).2 = [liquidation X; liquidation Y].
Proof. split; vm_compute; reflexivity. Qed.

Lemma symbol_in_isolation_witness :
  trailingHighs (ManageRisk tracking falling).1 !! X
  = trailingHighs
      (ManageRisk {| maximumDrawdownPercent := 0.25; trailingHighs := {[X := 100]} |}
         [(X, security true 100 74)]).1 !! X
  ∧ targets_for X (ManageRisk tracking falling).2
    = targets_for X
        (ManageRisk {| maximumDrawdownPercent := 0.25; trailingHighs := {[X := 100]} |}
           [(X, security true 100 74)]).2.
Proof.
  apply (symbol_in_isolation tracking
           {| maximumDrawdownPercent := 0.25; trailingHighs := {[X := 100]} |}
           X falling [(X, security true 100 74)]).
  - reflexivity.
  - vm_compute. reflexivity.
  - vm_compute. reflexivity.
Defined.

(** Scenario A and B in one call: the state of the four calls, and their
    lists end to end. *)
Example snapshot_in_pieces_runs :
  trailingHighs (ManageRisk fresh (concat scenario_AB)).1 !! X = Some 80
  ∧ (ManageRisk fresh (concat scenario_AB)).2 = [liquidation X].
Proof. split; vm_compute; reflexivity. Qed.

(** A window of three under a sum from the left: the mean of the last three
    inputs, ready from the third input on. *)
Example moving_average_runs :
  let r := CSMAWithWarmUp.feed sum_left (CSMAWithWarmUp.__init__ "custom" 3)
             [1; 2; 3; 7] in
  items (CSMAWithWarmUp.queue r.1) = [7; 3; 2]
  ∧ CSMAWithWarmUp.Value r.1 = 4
  ∧ r.2 = [false; false; true; true].
Proof. repeat split; vm_compute; reflexivity. Qed.

(** A period of zero: the deque stays empty, [Update] returns [True], and
    [Value] is [0.0 / 0], not a number. *)
Example moving_average_of_nothing :
  let r := CSMAWithoutWarmUp.feed sum_left (CSMAWithoutWarmUp.__init__ "custom" 0)
             [1; 2] in
  items (CSMAWithoutWarmUp.queue r.1) = []
  ∧ (CSMAWithoutWarmUp.Value r.1 =? CSMAWithoutWarmUp.Value r.1) = false
  ∧ r.2 = [true; true].
Proof. repeat split; vm_compute; reflexivity. Qed.

End MoreChecks.

(** ** The flags of the option regression algorithm *)

Module SupportedEuropeanOptionFacts.

Import SupportedEuropeanOption.

Section Flags.

Context {K : Type} `{EqDecision K}.
Implicit Types (self : @t K) (symbol : K).
Implicit Types (OptionChains : list (K * list OptionContract)).
Implicit Types (events : list (@event K)).

(** What the loop of [OnData] does to the flags, and when it is silent. *)
Lemma OnData_loop_flags OptionChains :
  ∀ self,
    let r := OnData_loop self OptionChains in
    let offered := chain_has_calls (_indexOptionSymbol self) OptionChains in
    _indexOptionSymbol r.1.1 = _indexOptionSymbol self
    ∧ _triedGreeksCalculation r.1.1
      = _triedGreeksCalculation self || (_showGreeks self && offered)
    ∧ _showGreeks r.1.1 = _showGreeks self && negb offered
    ∧ (_showGreeks self = false → r.1.2 = [] ∧ r.2 = None)
    ∧ (r.1.2 ≠ [] → _showGreeks r.1.1 = false).
Proof.
  induction OptionChains as [|kvp rest IH]; intros self r offered.
  - subst r offered. cbn.
    rewrite !andb_false_r, orb_false_r, andb_true_r. by repeat split.
  - subst r offered. cbn [OnData_loop chain_has_calls].
    destruct (bool_decide (kvp.1 = _indexOptionSymbol self)); cbn [negb]; [|apply IH].
    destruct (Nat.eqb (length (calls kvp.2)) 0); cbn [negb].
    { cbn. rewrite !andb_false_r, orb_false_r, andb_true_r. by repeat split. }
    destruct (_showGreeks self) eqn:Eshow.
    + cbn [andb negb]. rewrite orb_true_r.
      destruct (show_greeks (calls kvp.2)) as [log failed] eqn:Eshown.
      cbn [fst snd]. destruct failed as [failed|]; [by repeat split|].
      set (self' := {| _indexOptionSymbol := _indexOptionSymbol self;
                       _showGreeks := false;
                       _triedGreeksCalculation := true |}).
      destruct (IH self') as (J1 & J2 & J3 & J4 & J5).
      cbn [fst snd]. rewrite J1, J2, J3. cbn.
      repeat split; done.
    + destruct (IH self) as (J1 & J2 & J3 & J4 & J5).
      rewrite Eshow in J2, J3, J4. cbn [andb] in J2, J3.
      rewrite orb_false_r in J2. cbn [andb]. rewrite orb_false_r.
      split; [done|]. split; [done|]. split; [done|]. split; [by intros _; apply J4|].
      intros _. done.
Qed.

(** The same for [OnData]; during the warm-up nothing happens. *)
Lemma OnData_flags self (IsWarmingUp : bool) OptionChains :
  let r := OnData self IsWarmingUp OptionChains in
  let offered := offers_calls (_indexOptionSymbol self) (Data IsWarmingUp OptionChains) in
  _indexOptionSymbol r.1.1 = _indexOptionSymbol self
  ∧ _triedGreeksCalculation r.1.1
    = _triedGreeksCalculation self || (_showGreeks self && offered)
  ∧ (_showGreeks self = false → _showGreeks r.1.1 = false ∧ r.1.2 = [] ∧ r.2 = None)
  ∧ (r.1.2 ≠ [] → _showGreeks r.1.1 = false).
Proof.
  intros r offered. subst r offered. unfold OnData, offers_calls.
  destruct IsWarmingUp; cbn [negb andb].
  - cbn. rewrite andb_false_r, orb_false_r. by repeat split.
  - destruct (OnData_loop_flags OptionChains self) as (J1 & J2 & J3 & J4 & J5).
    split; [done|]. split; [done|]. split; [|done].
    intros Hoff. rewrite Hoff in J3. cbn in J3. by destruct (J4 Hoff).
Qed.

Lemma handle_tried events :
  ∀ self,
    tried_if_hidden self →
    _triedGreeksCalculation (handle self events).1.1
    = _triedGreeksCalculation self
      || existsb (offers_calls (_indexOptionSymbol self)) events.
Proof.
  induction events as [|e events IH]; intros self Hinv.
  - cbn. by rewrite orb_false_r.
  - destruct e as [IsWarmingUp OptionChains|].
    + cbn [handle existsb].
      destruct (OnData_flags self IsWarmingUp OptionChains) as (J1 & J2 & J3 & J4).
      set (d := OnData self IsWarmingUp OptionChains) in *.
      assert (Hinv' : tried_if_hidden d.1.1).
      { intros Hhid. rewrite J2.
        destruct (_showGreeks self) eqn:Eshow.
        - cbn [andb]. destruct (offers_calls _ _) eqn:Eoff; [by rewrite orb_true_r|].
          exfalso. subst d. unfold OnData, offers_calls in *.
          destruct IsWarmingUp; cbn [negb andb] in *; [cbn in Hhid; congruence|].
          destruct (OnData_loop_flags OptionChains self) as (_ & _ & L3 & _).
          rewrite Eshow, Eoff in L3. cbn in L3. congruence.
        - by rewrite (Hinv Eshow). }
      assert (Htried : _triedGreeksCalculation d.1.1
                       = _triedGreeksCalculation self
                         || offers_calls (_indexOptionSymbol self)
                              (Data IsWarmingUp OptionChains)).
      { rewrite J2. destruct (_showGreeks self) eqn:Eshow; [done|].
        rewrite (Hinv Eshow). done. }
      destruct d.2 as [failed|] eqn:Efail.
      * cbn [fst snd]. rewrite Htried.
        destruct (offers_calls _ (Data IsWarmingUp OptionChains)) eqn:Eoff;
          [by rewrite !orb_true_r|].
        exfalso. rewrite orb_false_r in Htried.
        destruct (_showGreeks self) eqn:Eshow.
        -- subst d. unfold OnData, offers_calls in *.
           destruct IsWarmingUp; cbn [negb andb] in *; [cbn in Efail; congruence|].
           clear J1 J2 J3 J4 Htried Hinv'.
           revert Efail Eoff Eshow. generalize self. clear.
           induction OptionChains as [|kvp rest IHc]; intros self Efail Eoff Eshow;
             [cbn in Efail; congruence|].
           cbn [OnData_loop chain_has_calls] in *.
           destruct (bool_decide (kvp.1 = _indexOptionSymbol self));
             cbn [negb] in *; [|by apply (IHc self)].
           destruct (Nat.eqb (length (calls kvp.2)) 0); cbn [negb] in *;
             [cbn in Efail; congruence|congruence].
        -- destruct (J3 eq_refl) as (_ & _ & Hnone). congruence.
      * cbn [fst snd]. rewrite (IH d.1.1 Hinv'), Htried, J1. by rewrite orb_assoc.
    + cbn [handle existsb offers_calls fst snd orb].
      rewrite (IH (OnEndOfDay self)); [done|]. intros Hhid. cbn in Hhid. congruence.
Qed.

(** X13 (the end of the algorithm).  After [Initialize] and any calls of
    [OnData] and [OnEndOfDay], [OnEndOfAlgorithm] raises exactly when no
    call of [OnData] came after the warm-up with a slice in which the chain
    of the index option has a call contract. *)
Theorem end_raises_iff_never_offered symbol events :
  OnEndOfAlgorithm (handle (Initialize symbol) events).1.1
  = negb (existsb (offers_calls symbol) events).
Proof.
  unfold OnEndOfAlgorithm. rewrite handle_tried; [done|].
  intros Hhid. cbn in Hhid. congruence.
Qed.

(** Once the greeks are hidden, calls of [OnData] send nothing. *)
Lemma hidden_sends_nothing events :
  ∀ self,
    _showGreeks self = false →
    forallb is_data events = true →
    filter (λ log : list DebugMessage, log ≠ []) (handle self events).1.2 = [].
Proof.
  induction events as [|e events IH]; intros self Hhid Hdata; [done|].
  destruct e as [IsWarmingUp OptionChains|]; [|done].
  cbn [forallb is_data andb] in Hdata. cbn [handle].
  destruct (OnData_flags self IsWarmingUp OptionChains) as (_ & _ & J3 & _).
  destruct (J3 Hhid) as (Hhid' & Hlog & Hnone).
  rewrite Hnone. cbn [fst snd]. rewrite Hlog.
  rewrite filter_cons_False by (intros Hne; by apply Hne).
  by apply IH.
Qed.

(** X14 (once a day).  Among calls of [OnData] with no [OnEndOfDay] in
    between, at most one sends messages. *)
Theorem greeks_shown_once_a_day self events :
  forallb is_data events = true →
  length (filter (λ log : list DebugMessage, log ≠ []) (handle self events).1.2) ≤ 1.
Proof.
  revert self. induction events as [|e events IH]; intros self Hdata; [cbn; lia|].
  destruct e as [IsWarmingUp OptionChains|]; [|done].
  cbn [forallb is_data andb] in Hdata. cbn [handle].
  destruct (OnData_flags self IsWarmingUp OptionChains) as (_ & _ & _ & J4).
  set (d := OnData self IsWarmingUp OptionChains) in *.
  destruct d.2 as [failed|].
  - cbn [fst snd]. destruct (decide (d.1.2 ≠ [])).
    + rewrite filter_cons_True by done. cbn. lia.
    + rewrite filter_cons_False by done. cbn. lia.
  - cbn [fst snd]. destruct (decide (d.1.2 ≠ [])) as [Hne|He].
    + rewrite filter_cons_True by done.
      rewrite (hidden_sends_nothing events d.1.1 (J4 Hne) Hdata). cbn. lia.
    + rewrite filter_cons_False by done. by apply IH.
Qed.

End Flags.

End SupportedEuropeanOptionFacts.

Module OptionChecks.

Import SupportedEuropeanOption SupportedEuropeanOptionFacts OptionScenario.

(** Nothing during the warm-up or for puts; the two calls of the chain are
    shown once on the first day and once after [OnEndOfDay]. *)
Example two_days_run :
  length <$> (handle (Initialize SPX) two_days).1.2 = [0; 0; 2; 0; 0; 2]%nat
  ∧ (handle (Initialize SPX) two_days).2 = None
  ∧ OnEndOfAlgorithm (handle (Initialize SPX) two_days).1.1 = false.
Proof. repeat split; vm_compute; reflexivity. Qed.

(** With puts only the algorithm fails at its end; with a call whose greeks
    cannot be read it fails at once, and counts as having tried. *)
Example failures_run :
  OnEndOfAlgorithm (handle (Initialize SPX) [Data false only_puts]).1.1 = true
  ∧ (handle (Initialize SPX) [Data false [(SPX, [a_call; a_bad_call])]]).2
    = Some (SymbolValue a_bad_call)
  ∧ OnEndOfAlgorithm
      (handle (Initialize SPX) [Data false [(SPX, [a_call; a_bad_call])]]).1.1
    = false.
Proof. repeat split; vm_compute; reflexivity. Qed.

Lemma greeks_shown_once_a_day_witness :
  length (filter (λ log : list DebugMessage, log ≠ [])
            (handle (Initialize SPX) one_day).1.2) ≤ 1.
Proof.
  apply (greeks_shown_once_a_day (Initialize SPX) one_day). reflexivity.
Defined.

End OptionChecks.
